(** * MITRE ATT&CK ETL connector: a shallow embedding of [etl_connector.py]

    The script is a straight-line pipeline of seven steps run by [main].
    Every function of the script is translated below into a computation of
    a small reader/state/exception monad:

    - the reader part is the [world], the script of everything outside the
      process (what the document store, the TAXII server, the clock and the
      [.env] file answer, and where a call raises);
    - the state part holds [os.environ], the contents of the document store,
      the local variable [client] of [main] and the trace of observable
      events (log lines, prints and calls to the outside);
    - the exception part is Python's: [sys.exit] raises [SystemExit], which
      an [except Exception] clause does not catch. *)

From Stdlib Require Import String Ascii List ZArith Bool Lia DecimalString.
From stdpp Require Import gmap strings.
Import ListNotations.
Set Warnings "-register-all".
Local Open Scope string_scope.
Local Open Scope list_scope.

(** ** Python values *)

(** The values that a parsed JSON body is made of.  Dictionaries keep their
    items in insertion order; a key is looked up at its first binding. *)
Inductive pyval : Type :=
| PNone
| PBool (b : bool)
| PInt (n : Z)
| PStr (s : string)
| PList (items : list pyval)
| PDict (items : list (string * pyval)).

Inductive exn : Type :=
| SystemExit (code : Z)
| KeyboardInterrupt
| PyException (msg : string).

Inductive result (A : Type) : Type :=
| Ok (a : A)
| Raise (e : exn).
Arguments Ok {A} a.
Arguments Raise {A} e.

(** What a call to the outside can do instead of returning: fail with an
    [Exception], or be cut by the user's interrupt. *)
Inductive failure : Type :=
| Failed (msg : string)
| Interrupted.

Inductive answer (A : Type) : Type :=
| Returns (a : A)
| Raises (f : failure).
Arguments Returns {A} a.
Arguments Raises {A} f.

Definition exn_of (f : failure) : exn :=
  match f with
  | Failed msg => PyException msg
  | Interrupted => KeyboardInterrupt
  end.

(** [needle in hay] on two [str]. *)
Fixpoint str_contains (needle hay : string) : bool :=
  if String.prefix needle hay then true
  else match hay with
       | EmptyString => false
       | String _ rest => str_contains needle rest
       end.

(** [str(n)] / the [{n}] of an f-string, for a non-negative [int]. *)
Definition show_nat (n : nat) : string :=
  NilEmpty.string_of_uint (Nat.to_uint n).

(** ["=" * n] *)
Fixpoint str_repeat (c : ascii) (n : nat) : string :=
  match n with
  | O => EmptyString
  | S k => String c (str_repeat c k)
  end.

Definition newline : string := String (ascii_of_nat 10) EmptyString.

(** [bool(v)] *)
Definition truthy (v : pyval) : bool :=
  match v with
  | PNone => false
  | PBool b => b
  | PInt n => negb (Z.eqb n 0)
  | PStr s => negb (String.eqb s "")
  | PList l => match l with [] => false | _ => true end
  | PDict kv => match kv with [] => false | _ => true end
  end.

Fixpoint dict_lookup (kv : list (string * pyval)) (key : string) : option pyval :=
  match kv with
  | [] => None
  | (k, v) :: rest => if String.eqb k key then Some v else dict_lookup rest key
  end.

Definition type_name (v : pyval) : string :=
  match v with
  | PNone => "NoneType"
  | PBool _ => "bool"
  | PInt _ => "int"
  | PStr _ => "str"
  | PList _ => "list"
  | PDict _ => "dict"
  end.

(** [v == s] for a [str] s: only a [str] with the same characters is equal. *)
Definition py_eq_str (v : pyval) (s : string) : bool :=
  match v with
  | PStr t => String.eqb t s
  | _ => false
  end.

Fixpoint chars_of (s : string) : list pyval :=
  match s with
  | EmptyString => []
  | String c rest => PStr (String c EmptyString) :: chars_of rest
  end.

(** ** The normalized record and the store *)

(** The dict literal built at lines 131-144, one field per key.
    [object_type] holds [obj_type], which is a [str] of [target_types]
    whenever the literal is built. *)
Record normalized_record : Type := {
  mitre_id : pyval;
  name : pyval;
  description : pyval;
  object_type : string;
  created : pyval;
  modified : pyval;
  labels : pyval;
  external_references : pyval;
  kill_chain_phases : pyval;
  ingested_at : Z;
  source : string;
  raw_object : pyval
}.

(** A stored document is a record written by this program or anything
    else that was in the collection before the run. *)
Inductive document : Type :=
| Normalized (r : normalized_record)
| Foreign (v : pyval).

(** [client[mongo_db][name]]: database name and collection name. *)
Definition handle : Type := (string * string)%type.

(** ** Observable events *)

Inductive level : Type := INFO | WARNING | ERROR.

Inductive store_op : Type :=
| CountDocuments
| DeleteMany
| InsertMany (docs : list document)
| Aggregate
| FindOne.

Inductive call : Type :=
| MongoClient (uri : string) (serverSelectionTimeoutMS : Z)
| ServerInfo
| ClientClose
| TaxiiServer (url : string)
| ApiRootTitle
| ApiRootCollections
| GetObjects (coll_title : string)
| Sleep (seconds : Z)
| StoreCall (h : handle) (op : store_op).

(** [Called c true]: the call returned; [Called c false]: it raised. *)
Inductive event : Type :=
| Log (l : level) (msg : string)
| Print (msg : string)
| Called (c : call) (returned : bool).

(** ** The world outside the process *)

Record taxii_collection : Type := {
  title : string;
  get_objects : answer pyval
}.

Record api_root : Type := {
  ar_title : answer string;
  ar_collections : answer (list taxii_collection)
}.

Record mongo_client : Type := { client_uri : string }.

(** The places where the script calls the store driver on the collection. *)
Inductive store_site : Type :=
| LoadCount | LoadDelete | LoadInsert | LoadVerify
| SummaryCount | SummaryAggregate | SummaryFindOne.

Record world : Type := {
  (** the variables of the [.env] file, empty when there is none *)
  w_dotenv : gmap string string;
  (** [MongoClient(...)], [client.server_info()], [client[name]] and
      [client.close()]: [Some f] when the call does not return *)
  w_mongo_client : option failure;
  w_server_info : option failure;
  w_database : string -> option failure;
  w_close : option failure;
  (** [Server(url).api_roots] at connection attempt 0, 1, 2 *)
  w_taxii_server : nat -> answer (list api_root);
  (** [time.sleep(5)] after attempt 0, 1 *)
  w_sleep : nat -> option failure;
  (** a driver call on the collection does not return *)
  w_store_fault : store_site -> option failure;
  (** what a write that does not return has done all the same: how many
      documents of the batch [insert_many] had inserted, in order, and
      which documents of the collection, by position, [delete_many] had
      deleted *)
  w_partial_insert : nat;
  w_partial_delete : nat -> bool;
  (** answers of the driver's query engine over the collection's documents:
      the groups of the aggregation pipeline, rendered, and the
      [ingested_at] of the document that sorts first, rendered
      ([Some None]: that document has no such key) *)
  w_aggregate : list document -> list (string * string);
  w_find_latest : list document -> option (option string);
  (** [datetime.utcnow()], by the number of earlier readings *)
  w_utcnow : nat -> Z;
  (** [duration.total_seconds()] formatted with [:.2f] *)
  w_elapsed : string
}.

(** ** The state of the process *)

Record state : Type := {
  (** [os.environ] *)
  environ : gmap string string;
  (** the documents of every collection of the store, by database name and
      collection name *)
  store : gmap (string * string) (list document);
  (** the local variable [client] of [main], once assigned *)
  main_client : option mongo_client;
  (** what the run has printed, logged and called so far, oldest first *)
  trace : list event
}.

Definition initial (env : gmap string string)
    (db : gmap (string * string) (list document)) : state :=
  {| environ := env; store := db; main_client := None; trace := [] |}.

Definition record_events (evs : list event) (s : state) : state :=
  {| environ := environ s; store := store s; main_client := main_client s;
     trace := trace s ++ evs |}.

Definition set_environ (env : gmap string string) (s : state) : state :=
  {| environ := env; store := store s; main_client := main_client s;
     trace := trace s |}.

Definition set_store (db : gmap (string * string) (list document))
    (s : state) : state :=
  {| environ := environ s; store := db; main_client := main_client s;
     trace := trace s |}.

Definition set_main_client (client : mongo_client) (s : state) : state :=
  {| environ := environ s; store := store s; main_client := Some client;
     trace := trace s |}.

(** ** The monad *)

Definition M (A : Type) : Type := world -> state -> result A * state.

Definition ret {A} (a : A) : M A := fun _ s => (Ok a, s).

Definition bind {A B} (m : M A) (k : A -> M B) : M B :=
  fun w s =>
    match m w s with
    | (Ok a, s') => k a w s'
    | (Raise e, s') => (Raise e, s')
    end.

Declare Scope etl_scope.
Delimit Scope etl_scope with etl.
Notation "x <- m ;; k" := (bind m (fun x => k))
  (at level 100, m at next level, k at level 200, right associativity)
  : etl_scope.
Notation "m ;; k" := (bind m (fun _ => k))
  (at level 100, k at level 200, right associativity) : etl_scope.
Local Open Scope etl_scope.

Definition raise {A} (e : exn) : M A := fun _ s => (Raise e, s).

(** [sys.exit(code)] *)
Definition sys_exit {A} (code : Z) : M A := raise (SystemExit code).

(** [try: body  except Exception as e: handler(str(e))] *)
Definition try_except {A} (body : M A) (handler : string -> M A) : M A :=
  fun w s =>
    match body w s with
    | (Raise (PyException msg), s') => handler msg w s'
    | other => other
    end.

(** [try: body  finally: cleanup]: an exception of the cleanup replaces
    the outcome of the body. *)
Definition try_finally {A} (body : M A) (cleanup : M unit) : M A :=
  fun w s =>
    let (r, s') := body w s in
    match cleanup w s' with
    | (Ok _, s'') => (r, s'')
    | (Raise e, s'') => (Raise e, s'')
    end.

Definition ask : M world := fun w s => (Ok w, s).

Definition emit (ev : event) : M unit :=
  fun _ s => (Ok tt, record_events [ev] s).

Definition log (l : level) (msg : string) : M unit := emit (Log l msg).
Definition print (msg : string) : M unit := emit (Print msg).

(** A call to the outside whose answer the world gives. *)
Definition call_out {A} (c : call) (ans : answer A) : M A :=
  match ans with
  | Returns a => emit (Called c true) ;; ret a
  | Raises f => emit (Called c false) ;; raise (exn_of f)
  end.

Definition fault (f : option failure) : answer unit :=
  match f with
  | None => Returns tt
  | Some e => Raises e
  end.

Fixpoint for_each {A} (l : list A) (body : A -> M unit) : M unit :=
  match l with
  | [] => ret tt
  | x :: rest => body x ;; for_each rest body
  end.

(** ** Step 1: [load_environment] *)

(** [load_dotenv()] adds the variables of the file that [os.environ] does
    not have yet. *)
Definition load_dotenv : M unit :=
  fun w s => (Ok tt, set_environ (environ s ∪ w_dotenv w) s).

Definition getenv (key : string) : M (option string) :=
  fun _ s => (Ok (environ s !! key), s).

(** [not v] for the result of [os.getenv]: [None] or the empty string. *)
Definition not_set (v : option string) : bool :=
  match v with
  | None => true
  | Some x => String.eqb x ""
  end.

Definition load_environment : M (string * string) :=
  load_dotenv ;;
  mongo_uri <- getenv "MONGO_URI" ;;
  mongo_db <- getenv "MONGO_DB" ;;
  if not_set mongo_uri || not_set mongo_db then
    log ERROR "Missing required environment variables (MONGO_URI, MONGO_DB)" ;;
    log INFO "Please check your .env file and ensure all required variables are set" ;;
    sys_exit 1
  else ret (default "" mongo_uri, default "" mongo_db).

(** ** Step 2: [connect_to_mongodb] *)

Definition connect_to_mongodb (mongo_uri mongo_db : string)
  : M (mongo_client * string * handle) :=
  try_except
    (log INFO "Connecting to MongoDB..." ;;
     w <- ask ;;
     call_out (MongoClient mongo_uri 5000) (fault (w_mongo_client w)) ;;
     let client := {| client_uri := mongo_uri |} in
     call_out ServerInfo (fault (w_server_info w)) ;;
     match w_database w mongo_db with
     | Some f => raise (exn_of f)
     | None =>
         let db := mongo_db in
         let collection := (db, "mitre_attack_raw") in
         log INFO "Successfully connected to MongoDB" ;;
         ret (client, db, collection)
     end)
    (fun e =>
       log ERROR ("MongoDB connection failed: " +:+ e) ;;
       log INFO "Please check your MongoDB URI and ensure the database is accessible" ;;
       sys_exit 1).

(** ** Step 3: [connect_to_taxii_server] *)

Definition taxii_url : string := "https://cti-taxii.mitre.org/taxii/".
Definition max_retries : nat := 3.

(** One turn of the loop: [Some] is the [return], [None] goes on with the
    next attempt. *)
Definition taxii_attempt (attempt : nat) : M (option (string * api_root)) :=
  try_except
    (log INFO ("Connecting to MITRE TAXII server... (Attempt " +:+
               show_nat (attempt + 1) +:+ "/" +:+ show_nat max_retries +:+ ")") ;;
     w <- ask ;;
     api_roots <- call_out (TaxiiServer taxii_url) (w_taxii_server w attempt) ;;
     match api_roots with
     | [] => raise (PyException "No API roots found on TAXII server")
     | api_root :: _ =>
         t <- call_out ApiRootTitle (ar_title api_root) ;;
         log INFO ("Connected to API Root: " +:+ t) ;;
         ret (Some (taxii_url, api_root))
     end)
    (fun e =>
       log WARNING ("Connection attempt " +:+ show_nat (attempt + 1) +:+
                    " failed: " +:+ e) ;;
       if (attempt <? max_retries - 1)%nat then
         log INFO "Retrying in 5 seconds..." ;;
         w <- ask ;;
         call_out (Sleep 5) (fault (w_sleep w attempt)) ;;
         ret None
       else
         log ERROR "Cannot connect to TAXII server after multiple attempts" ;;
         log INFO "Please check your network connection and try using a VPN if needed" ;;
         sys_exit 1).

(** [for attempt in ...]; falling off the loop returns [None]. *)
Fixpoint taxii_loop (attempts : list nat) : M (option (string * api_root)) :=
  match attempts with
  | [] => ret None
  | attempt :: rest =>
      r <- taxii_attempt attempt ;;
      match r with
      | Some found => ret (Some found)
      | None => taxii_loop rest
      end
  end.

Definition connect_to_taxii_server : M (option (string * api_root)) :=
  taxii_loop (seq 0 max_retries).

(** ** Step 4: [get_enterprise_collection] *)

Definition is_enterprise (coll : taxii_collection) : bool :=
  str_contains "Enterprise ATT&CK" (title coll).

(** The loop with [break] of lines 88-92: the first collection that
    matches, [None] when the loop runs to its end. *)
Fixpoint first_enterprise (collections : list taxii_collection)
  : option taxii_collection :=
  match collections with
  | [] => None
  | coll :: rest =>
      if is_enterprise coll then Some coll else first_enterprise rest
  end.

Definition get_enterprise_collection (root : api_root) : M taxii_collection :=
  log INFO "Looking for Enterprise ATT&CK collection..." ;;
  try_except
    (collections <- call_out ApiRootCollections (ar_collections root) ;;
     match collections with
     | [] => raise (PyException "No collections found in API root")
     | _ =>
         match first_enterprise collections with
         | None =>
             log ERROR "Enterprise ATT&CK collection not found" ;;
             log INFO "Available collections:" ;;
             for_each collections
               (fun coll => log INFO ("   - " +:+ title coll)) ;;
             sys_exit 1
         | Some enterprise_collection =>
             log INFO ("Found collection: " +:+ title enterprise_collection) ;;
             ret enterprise_collection
         end
     end)
    (fun e =>
       log ERROR ("Error accessing collections: " +:+ e) ;;
       sys_exit 1).

(** ** Step 5: [fetch_and_transform_data] *)

(** The operations of Python that the step applies to the response.  Each
    raises the [TypeError], [AttributeError] or [KeyError] of the
    interpreter on a value that does not support it; the message texts are
    CPython's and no property below depends on them. *)

(** [obj.get(key, dflt)] *)
Definition py_get (obj : pyval) (key : string) (dflt : pyval) : M pyval :=
  match obj with
  | PDict kv => ret (default dflt (dict_lookup kv key))
  | _ => raise (PyException
                  ("'" +:+ type_name obj +:+ "' object has no attribute 'get'"))
  end.

(** [key in v] *)
Definition py_in (key : string) (v : pyval) : M bool :=
  match v with
  | PDict kv => ret (match dict_lookup kv key with Some _ => true | None => false end)
  | PList l => ret (existsb (fun x => py_eq_str x key) l)
  | PStr s => ret (str_contains key s)
  | _ => raise (PyException
                  ("argument of type '" +:+ type_name v +:+ "' is not iterable"))
  end.

(** [v[key]] *)
Definition py_item (v : pyval) (key : string) : M pyval :=
  match v with
  | PDict kv =>
      match dict_lookup kv key with
      | Some x => ret x
      | None => raise (PyException ("'" +:+ key +:+ "'"))
      end
  | PList _ => raise (PyException "list indices must be integers or slices, not str")
  | PStr _ => raise (PyException "string indices must be integers")
  | _ => raise (PyException
                  ("'" +:+ type_name v +:+ "' object is not subscriptable"))
  end.

(** [len(v)] *)
Definition py_len (v : pyval) : M nat :=
  match v with
  | PList l => ret (length l)
  | PDict kv => ret (length kv)
  | PStr s => ret (String.length s)
  | _ => raise (PyException
                  ("object of type '" +:+ type_name v +:+ "' has no len()"))
  end.

(** The values that [for obj in v] runs over. *)
Definition py_iter (v : pyval) : M (list pyval) :=
  match v with
  | PList l => ret l
  | PDict kv => ret (map (fun item => PStr (fst item)) kv)
  | PStr s => ret (chars_of s)
  | _ => raise (PyException ("'" +:+ type_name v +:+ "' object is not iterable"))
  end.

Definition target_types : list string :=
  ["attack-pattern"; "intrusion-set"; "malware"].

(** [obj_type in target_types]: membership in a list of [str] by [==], so
    it holds of a [str] only; [Some t] gives that [str]. *)
Definition in_target_types (obj_type : pyval) : option string :=
  match obj_type with
  | PStr t => if existsb (String.eqb t) target_types then Some t else None
  | _ => None
  end.

(** [datetime.utcnow()] when [n] readings were taken before. *)
Definition utcnow (n : nat) : M Z := fun w s => (Ok (w_utcnow w n), s).

(** The loop of lines 127-145 over the objects still to visit, with the
    list [transformed] built so far. *)
Fixpoint transform_loop (objects : list pyval)
    (transformed : list normalized_record) : M (list normalized_record) :=
  match objects with
  | [] => ret transformed
  | obj :: rest =>
      obj_type <- py_get obj "type" PNone ;;
      match in_target_types obj_type with
      | Some t =>
          v_id <- py_get obj "id" PNone ;;
          v_name <- py_get obj "name" (PStr "Unknown") ;;
          v_description <- py_get obj "description" (PStr "") ;;
          v_created <- py_get obj "created" PNone ;;
          v_modified <- py_get obj "modified" PNone ;;
          v_labels <- py_get obj "labels" (PList []) ;;
          v_external_references <- py_get obj "external_references" (PList []) ;;
          v_kill_chain_phases <- py_get obj "kill_chain_phases" (PList []) ;;
          now <- utcnow (length transformed) ;;
          let transformed_obj :=
            {| mitre_id := v_id;
               name := v_name;
               description := v_description;
               object_type := t;
               created := v_created;
               modified := v_modified;
               labels := v_labels;
               external_references := v_external_references;
               kill_chain_phases := v_kill_chain_phases;
               ingested_at := now;
               source := "MITRE ATT&CK TAXII Server";
               raw_object := obj |} in
          transform_loop rest (transformed ++ [transformed_obj])
      | None => transform_loop rest transformed
      end
  end.

(** [type_counts[t] = type_counts.get(t, 0) + 1] on a dict kept in
    insertion order. *)
Fixpoint count_type (type_counts : list (string * nat)) (t : string)
  : list (string * nat) :=
  match type_counts with
  | [] => [(t, 1)]
  | (k, c) :: rest =>
      if String.eqb k t then (k, c + 1) :: rest
      else (k, c) :: count_type rest t
  end.

Definition type_breakdown (transformed : list normalized_record)
  : list (string * nat) :=
  fold_left (fun type_counts obj => count_type type_counts (object_type obj))
            transformed [].

(** The body of the [try] of lines 112-159. *)
Definition fetch_body (enterprise_collection : taxii_collection)
  : M (list normalized_record) :=
  response <- call_out (GetObjects (title enterprise_collection))
                       (get_objects enterprise_collection) ;;
  no_data <- (if negb (truthy response) then ret true
              else (present <- py_in "objects" response ;; ret (negb present))) ;;
  if no_data : bool then
    log ERROR "No data received from TAXII server" ;;
    ret []
  else
    objects <- py_item response "objects" ;;
    n <- py_len objects ;;
    log INFO ("Retrieved " +:+ show_nat n +:+ " total objects") ;;
    items <- py_iter objects ;;
    transformed <- transform_loop items [] ;;
    log INFO ("Transformed " +:+ show_nat (length transformed) +:+
              " relevant objects") ;;
    log INFO "Object type breakdown:" ;;
    for_each (type_breakdown transformed)
      (fun item => log INFO ("   - " +:+ fst item +:+ ": " +:+
                             show_nat (snd item))) ;;
    ret transformed.

Definition fetch_and_transform_data (enterprise_collection : taxii_collection)
  : M (list normalized_record) :=
  log INFO "Fetching data from MITRE ATT&CK..." ;;
  try_except (fetch_body enterprise_collection)
    (fun e =>
       log ERROR ("Error fetching/transforming data: " +:+ e) ;;
       ret []).

(** ** Step 6: [load_to_mongodb] *)

Definition docs_of (db : gmap (string * string) (list document)) (h : handle)
  : list document :=
  default [] (db !! h).

(** The documents of a collection, and their replacement. *)
Definition read_docs (h : handle) : M (list document) :=
  fun _ s => (Ok (docs_of (store s) h), s).

Definition write_docs (h : handle) (docs : list document) : M unit :=
  fun _ s => (Ok tt, set_store (<[h := docs]> (store s)) s).

(** A driver call that reads the collection. *)
Definition store_read {A} (site : store_site) (h : handle) (op : store_op)
    (result_of : world -> list document -> A) : M A :=
  w <- ask ;;
  call_out (StoreCall h op) (fault (w_store_fault w site)) ;;
  docs <- read_docs h ;;
  ret (result_of w docs).

(** A driver call that replaces the documents of the collection.  When it
    returns the collection holds [update docs]; when it raises, the
    collection holds what the call had done by then, [partial w docs]. *)
Definition store_write (site : store_site) (h : handle) (op : store_op)
    (update : list document -> list document)
    (partial : world -> list document -> list document) : M unit :=
  w <- ask ;;
  match w_store_fault w site with
  | None =>
      call_out (StoreCall h op) (Returns tt) ;;
      docs <- read_docs h ;;
      write_docs h (update docs)
  | Some f =>
      docs <- read_docs h ;;
      write_docs h (partial w docs) ;;
      call_out (StoreCall h op) (Raises f)
  end.

(** The documents that a deletion cut short has left, [i] being the
    position of the first one. *)
Fixpoint survivors (deleted : nat -> bool) (i : nat) (docs : list document)
  : list document :=
  match docs with
  | [] => []
  | d :: rest =>
      if deleted i then survivors deleted (S i) rest
      else d :: survivors deleted (S i) rest
  end.

(** [collection.count_documents({})] *)
Definition count_documents (site : store_site) (h : handle) : M nat :=
  store_read site h CountDocuments (fun _ docs => length docs).

(** [collection.delete_many({})] *)
Definition delete_many (site : store_site) (h : handle) : M unit :=
  store_write site h DeleteMany (fun _ => [])
    (fun w old => survivors (w_partial_delete w) 0 old).

(** [collection.insert_many(docs)]; the result is [len(inserted_ids)], one
    identifier per document. *)
Definition insert_many (site : store_site) (h : handle) (docs : list document)
  : M nat :=
  store_write site h (InsertMany docs) (fun old => old ++ docs)
    (fun w old => old ++ firstn (w_partial_insert w) docs) ;;
  ret (length docs).

Definition load_to_mongodb (collection : handle)
    (transformed_data : list normalized_record) : M bool :=
  match transformed_data with
  | [] =>
      log WARNING "No data to insert into MongoDB" ;;
      ret false
  | _ =>
      try_except
        (log INFO ("Loading " +:+ show_nat (length transformed_data) +:+
                   " objects into MongoDB...") ;;
         existing_count <- count_documents LoadCount collection ;;
         (if (0 <? existing_count)%nat then
            log INFO ("Clearing " +:+ show_nat existing_count +:+
                      " existing documents...") ;;
            delete_many LoadDelete collection
          else ret tt) ;;
         inserted <- insert_many LoadInsert collection
                       (map Normalized transformed_data) ;;
         if (0 <? inserted)%nat then
           log INFO ("Successfully inserted " +:+ show_nat inserted +:+
                     " documents") ;;
           final_count <- count_documents LoadVerify collection ;;
           log INFO ("Total documents in collection: " +:+ show_nat final_count) ;;
           ret true
         else
           log ERROR "No documents were inserted" ;;
           ret false)
        (fun e =>
           log ERROR ("MongoDB insertion failed: " +:+ e) ;;
           ret false)
  end.

(** ** Step 7: [print_summary] *)

Definition bar : string := str_repeat "="%char 50.

Definition print_summary (collection : handle) : M unit :=
  try_except
    (print (newline +:+ bar) ;;
     print "DATA SUMMARY" ;;
     print bar ;;
     total_docs <- count_documents SummaryCount collection ;;
     print ("Total documents: " +:+ show_nat total_docs) ;;
     type_counts <- store_read SummaryAggregate collection Aggregate w_aggregate ;;
     print (newline +:+ "Breakdown by type:") ;;
     for_each type_counts
       (fun item => print ("  " +:+ fst item +:+ ": " +:+ snd item)) ;;
     latest_doc <- store_read SummaryFindOne collection FindOne w_find_latest ;;
     match latest_doc with
     | None => ret tt
     | Some None => raise (PyException "'ingested_at'")
     | Some (Some t) => print (newline +:+ "Latest ingestion: " +:+ t)
     end ;;
     print bar)
    (fun e => log WARNING ("Could not generate summary: " +:+ e)).

(** ** [main] *)

(** The assignment to the local [client] of [main]. *)
Definition assign_client (client : mongo_client) : M unit :=
  fun _ s => (Ok tt, set_main_client client s).

(** ['client' in locals()], with the client when it is there. *)
Definition local_client : M (option mongo_client) :=
  fun _ s => (Ok (main_client s), s).

(** The body of the [try] of lines 237-265. *)
Definition main_body : M unit :=
  config <- load_environment ;;
  let (mongo_uri, mongo_db) := config : string * string in
  connection <- connect_to_mongodb mongo_uri mongo_db ;;
  let '(client, db, collection) := connection : mongo_client * string * handle in
  assign_client client ;;
  feed <- connect_to_taxii_server ;;
  match feed with
  | None => raise (PyException "cannot unpack non-iterable NoneType object")
  | Some (server, root) =>
      enterprise_collection <- get_enterprise_collection root ;;
      transformed_data <- fetch_and_transform_data enterprise_collection ;;
      success <- load_to_mongodb collection transformed_data ;;
      if success : bool then
        print_summary collection ;;
        w <- ask ;;
        log INFO ("ETL pipeline completed successfully in " +:+ w_elapsed w +:+
                  " seconds")
      else
        log ERROR "ETL pipeline failed during data loading" ;;
        sys_exit 1
  end.

(** The two [except] clauses of [main]. *)
Definition main_handlers (body : M unit) : M unit :=
  fun w s =>
    match body w s with
    | (Raise KeyboardInterrupt, s') =>
        (log WARNING "ETL pipeline interrupted by user" ;; sys_exit 1) w s'
    | (Raise (PyException e), s') =>
        (log ERROR ("Unexpected error in ETL pipeline: " +:+ e) ;;
         sys_exit 1) w s'
    | other => other
    end.

(** The [finally] clause of [main]. *)
Definition main_cleanup : M unit :=
  client <- local_client ;;
  match client with
  | Some _ =>
      w <- ask ;;
      call_out ClientClose (fault (w_close w)) ;;
      log INFO "MongoDB connection closed"
  | None => ret tt
  end.

Definition main : M unit :=
  print "MITRE ATT&CK ETL Connector Started" ;;
  print bar ;;
  try_finally (main_handlers main_body) main_cleanup.

(** The exit status of the process for an outcome of [main]: 0 when it
    returns, the code of [sys.exit], and the interpreter's non-zero status
    for an exception that nothing caught. *)
Definition exit_status (r : result unit) : Z :=
  match r with
  | Ok _ => 0
  | Raise (SystemExit code) => code
  | Raise KeyboardInterrupt => 130
  | Raise (PyException _) => 1
  end.

Definition run (w : world) (env : gmap string string)
    (db : gmap (string * string) (list document)) : result unit * state :=
  main w (initial env db).

(** ** Vocabulary of the properties *)

(** The type tag of a source object, when it has one that is a [str]. *)
Definition type_tag (obj : pyval) : option string :=
  match obj with
  | PDict kv =>
      match dict_lookup kv "type" with
      | Some (PStr t) => Some t
      | _ => None
      end
  | _ => None
  end.

(** The object's type tag is one of the three of the allowlist. *)
Definition allowlisted (obj : pyval) : bool :=
  match type_tag obj with
  | Some t => existsb (String.eqb t) ["attack-pattern"; "intrusion-set"; "malware"]
  | None => false
  end.

(** An attribute of a source object, or the default when it has none. *)
Definition attribute (obj : pyval) (key : string) (dflt : pyval) : pyval :=
  match obj with
  | PDict kv => default dflt (dict_lookup kv key)
  | _ => dflt
  end.

(** The normalized record of a source object ingested at [now]. *)
Definition normalized (obj : pyval) (now : Z) : normalized_record :=
  {| mitre_id := attribute obj "id" PNone;
     name := attribute obj "name" (PStr "Unknown");
     description := attribute obj "description" (PStr "");
     object_type := default "" (type_tag obj);
     created := attribute obj "created" PNone;
     modified := attribute obj "modified" PNone;
     labels := attribute obj "labels" (PList []);
     external_references := attribute obj "external_references" (PList []);
     kill_chain_phases := attribute obj "kill_chain_phases" (PList []);
     ingested_at := now;
     source := "MITRE ATT&CK TAXII Server";
     raw_object := obj |}.

(** The records of the objects of a list, the first one ingested at the
    clock's reading number [n]. *)
Fixpoint normalized_from (w : world) (n : nat) (objs : list pyval)
  : list normalized_record :=
  match objs with
  | [] => []
  | obj :: rest => normalized obj (w_utcnow w n) :: normalized_from w (S n) rest
  end.

(** ** Relations between the states before and after a computation *)

(** Every outcome of [m] leaves the state related by [R] to the state it
    started from. *)
Definition respects (R : state -> state -> Prop) {A} (m : M A) : Prop :=
  forall w s r s', m w s = (r, s') -> R s s'.

(** The trace grew by events that all satisfy [P]. *)
Definition emitting (P : event -> Prop) (s s' : state) : Prop :=
  exists evs, trace s' = trace s ++ evs /\ Forall P evs.

(** The calls that neither close the client nor go to the store. *)
Definition outward (c : call) : bool :=
  match c with
  | ClientClose | StoreCall _ _ => false
  | _ => true
  end.

Definition is_close (ev : event) : bool :=
  match ev with
  | Called ClientClose _ => true
  | _ => false
  end.

(** The number of [client.close()] calls of a trace. *)
Definition close_calls (t : list event) : nat :=
  length (List.filter is_close t).

(** The event is a call of [MongoClient(...)] that returned. *)
Definition is_open (ev : event) : bool :=
  match ev with
  | Called (MongoClient _ _) true => true
  | _ => false
  end.

(** The event is a call of [MongoClient(...)], returned or not. *)
Definition is_connect_attempt (ev : event) : bool :=
  match ev with
  | Called (MongoClient _ _) _ => true
  | _ => false
  end.

(** The collection a store call goes to. *)
Definition store_target (ev : event) : option handle :=
  match ev with
  | Called (StoreCall h _) _ => Some h
  | _ => None
  end.

(** ** The run, cut at the points the properties speak of *)

(** The state in which the [try] of [main] starts. *)
Definition started (env : gmap string string)
    (db : gmap (string * string) (list document)) : state :=
  record_events [Print bar]
    (record_events [Print "MITRE ATT&CK ETL Connector Started"] (initial env db)).

(** Steps 1 and 2 of [main]. *)
Definition open_store : M (mongo_client * string * handle) :=
  config <- load_environment ;;
  connect_to_mongodb (fst config) (snd config).

(** Steps 3 and 4 of [main]. *)
Definition locate_collection : M taxii_collection :=
  feed <- connect_to_taxii_server ;;
  match feed with
  | None => raise (PyException "cannot unpack non-iterable NoneType object")
  | Some (server, root) => get_enterprise_collection root
  end.

(** Steps 1 to 4 of [main]: what the run holds when it reaches the fetch. *)
Definition reach_fetch : M (handle * taxii_collection) :=
  connection <- open_store ;;
  assign_client (fst (fst connection)) ;;
  enterprise_collection <- locate_collection ;;
  ret (snd connection, enterprise_collection).

(** Steps 5 to 7 of [main]. *)
Definition fetch_load_report (collection : handle)
    (enterprise_collection : taxii_collection) : M unit :=
  transformed_data <- fetch_and_transform_data enterprise_collection ;;
  success <- load_to_mongodb collection transformed_data ;;
  if success : bool then
    print_summary collection ;;
    w <- ask ;;
    log INFO ("ETL pipeline completed successfully in " +:+ w_elapsed w +:+
              " seconds")
  else
    log ERROR "ETL pipeline failed during data loading" ;;
    sys_exit 1.

(** The database name the run is configured with. *)
Definition configured_db (w : world) (env : gmap string string) : string :=
  default "" ((env ∪ w_dotenv w) !! "MONGO_DB").

(** The collection the store connector hands to the run. *)
Definition target_collection (w : world) (env : gmap string string) : handle :=
  (configured_db w env, "mitre_attack_raw").

(** The trace grew by events of [P] and only collections of [Q] changed. *)
Definition evolves (P : event -> Prop) (Q : handle -> Prop) (s s' : state)
  : Prop :=
  emitting P s s' /\ (forall k, ~ Q k -> store s' !! k = store s !! k).

(** The local [client] of [main] is what it was. *)
Definition same_client (s s' : state) : Prop := main_client s' = main_client s.

(** The events and collections of the instances below. *)
Definition any_event (ev : event) : Prop := True.
Definition not_close (ev : event) : Prop := is_close ev = false.
Definition not_store (ev : event) : Prop := store_target ev = None.
Definition targets (h : handle) (ev : event) : Prop :=
  forall h', store_target ev = Some h' -> h' = h.
Definition any_collection (h : handle) : Prop := True.
Definition no_collection (h : handle) : Prop := False.
Definition only (h0 h : handle) : Prop := h = h0.

(** ** Vocabulary of the configuration, feed and locator properties *)

(** The variable is missing from the environment or empty. *)
Definition absent (env : gmap string string) (key : string) : Prop :=
  env !! key = None \/ env !! key = Some "".

(** The environment that [load_environment] reads: the process's, completed
    by the [.env] file. *)
Definition effective_env (w : world) (env : gmap string string)
  : gmap string string :=
  env ∪ w_dotenv w.

(** An error line of the log names the variable. *)
Definition reported (t : list event) (key : string) : bool :=
  existsb (fun ev => match ev with
                     | Log ERROR msg => str_contains key msg
                     | _ => false
                     end) t.

(** How a connection attempt fails, with the message of the exception:
    the server cannot be reached, it has no API root, or the title of its
    first API root cannot be read. *)
Definition attempt_fails (w : world) (attempt : nat) : option string :=
  match w_taxii_server w attempt with
  | Raises (Failed msg) => Some msg
  | Raises Interrupted => None
  | Returns [] => Some "No API roots found on TAXII server"
  | Returns (root :: _) =>
      match ar_title root with
      | Raises (Failed msg) => Some msg
      | _ => None
      end
  end.

(** The connection attempts and the sleeps of a trace, in order. *)
Definition feed_activity (t : list event) : list call :=
  flat_map (fun ev => match ev with
                      | Called (TaxiiServer url) _ => [TaxiiServer url]
                      | Called (Sleep seconds) _ => [Sleep seconds]
                      | _ => []
                      end) t.

(** The titles that the log lists, one per line ["   - title"]. *)
Definition listed_titles (t : list event) : list string :=
  flat_map (fun ev => match ev with
                      | Log INFO msg =>
                          if String.prefix "   - " msg
                          then [String.substring 5 (String.length msg - 5) msg]
                          else []
                      | _ => []
                      end) t.

Definition no_match (coll : taxii_collection) : Prop :=
  str_contains "Enterprise ATT&CK" (title coll) = false.

(** Only the connection string is configured. *)
Definition env_without_db : gmap string string :=
  <["MONGO_URI" := "mongodb://localhost:27017"]> ∅.

(** The state in which the [try] of the fetch step starts. *)
Definition fetching (s : state) : state :=
  record_events [Log INFO "Fetching data from MITRE ATT&CK..."] s.

(** The fetch step degrades: the response is empty, or it is an object
    without the [objects] field, or an [Exception] is raised somewhere in
    the [try] of the step. *)
Definition degraded_fetch (ec : taxii_collection) (w : world) (s : state)
  : Prop :=
  (exists response, get_objects ec = Returns response /\ truthy response = false) \/
  (exists kv, get_objects ec = Returns (PDict kv) /\ dict_lookup kv "objects" = None) \/
  (exists msg s', fetch_body ec w (fetching s) = (Raise (PyException msg), s')).

(** ** Sample inputs *)

Definition sample_object (id type : string) : list (string * pyval) :=
  [("id", PStr id); ("type", PStr type); ("name", PStr ("name of " +:+ id))].

(** Five objects, the third outside the allowlist, the second and the
    fifth with the same id. *)
Definition sample_objects : list (list (string * pyval)) :=
  [sample_object "attack-pattern--1" "attack-pattern";
   sample_object "malware--2" "malware";
   sample_object "course-of-action--3" "course-of-action";
   sample_object "intrusion-set--4" "intrusion-set";
   sample_object "malware--2" "malware"].

Definition sample_response : list (string * pyval) :=
  [("spec_version", PStr "2.1"); ("objects", PList (map PDict sample_objects))].

Definition sample_collection : taxii_collection :=
  {| title := "Enterprise ATT&CK"; get_objects := Returns (PDict sample_response) |}.

Definition mobile_collection : taxii_collection :=
  {| title := "Mobile ATT&CK"; get_objects := Returns (PDict []) |}.

Definition ics_collection : taxii_collection :=
  {| title := "ICS ATT&CK"; get_objects := Returns (PDict []) |}.

Definition sample_root : api_root :=
  {| ar_title := Returns "MITRE ATT&CK";
     ar_collections := Returns [mobile_collection; sample_collection] |}.

(** A world in which nothing fails. *)
Definition calm_world : world :=
  {| w_dotenv := ∅;
     w_mongo_client := None;
     w_server_info := None;
     w_database := fun _ => None;
     w_close := None;
     w_taxii_server := fun _ => Returns [sample_root];
     w_sleep := fun _ => None;
     w_store_fault := fun _ => None;
     w_partial_insert := 0;
     w_partial_delete := fun _ => false;
     w_aggregate := fun _ => [];
     w_find_latest := fun _ => None;
     w_utcnow := fun n => (1700000000 + Z.of_nat n)%Z;
     w_elapsed := "0.42" |}.

Definition sample_env : gmap string string :=
  <["MONGO_URI" := "mongodb://localhost:27017"]> (<["MONGO_DB" := "cti"]> ∅).

(** The store accepts the connection but does not answer the probe. *)
Definition unreachable_store_world : world :=
  {| w_dotenv := ∅;
     w_mongo_client := None;
     w_server_info := Some (Failed "No servers found yet");
     w_database := fun _ => None;
     w_close := None;
     w_taxii_server := fun _ => Returns [sample_root];
     w_sleep := fun _ => None;
     w_store_fault := fun _ => None;
     w_partial_insert := 0;
     w_partial_delete := fun _ => false;
     w_aggregate := fun _ => [];
     w_find_latest := fun _ => None;
     w_utcnow := fun n => (1700000000 + Z.of_nat n)%Z;
     w_elapsed := "0.42" |}.

(** The user interrupts the first wait between two connection attempts. *)
Definition interrupted_world : world :=
  {| w_dotenv := ∅;
     w_mongo_client := None;
     w_server_info := None;
     w_database := fun _ => None;
     w_close := None;
     w_taxii_server := fun _ => Raises (Failed "Name or service not known");
     w_sleep := fun _ => Some Interrupted;
     w_store_fault := fun _ => None;
     w_partial_insert := 0;
     w_partial_delete := fun _ => false;
     w_aggregate := fun _ => [];
     w_find_latest := fun _ => None;
     w_utcnow := fun n => (1700000000 + Z.of_nat n)%Z;
     w_elapsed := "0.42" |}.

(** A store with ten documents in the target collection and others in a
    sibling collection and in another database. *)
Definition unrelated_docs : list document :=
  map (fun n => Foreign (PDict [("n", PInt (Z.of_nat n))])) (seq 0 10).

Definition populated_store : gmap (string * string) (list document) :=
  <[("cti", "mitre_attack_raw") := unrelated_docs]>
    (<[("cti", "notes") := [Foreign (PStr "keep me")]]>
       (<[("other", "mitre_attack_raw") := [Foreign (PStr "and me")]]> ∅)).

(** The bulk insert is refused by the store. *)
Definition failing_insert_world : world :=
  {| w_dotenv := ∅;
     w_mongo_client := None;
     w_server_info := None;
     w_database := fun _ => None;
     w_close := None;
     w_taxii_server := fun _ => Returns [sample_root];
     w_sleep := fun _ => None;
     w_store_fault := fun site =>
       match site with
       | LoadInsert => Some (Failed "not authorized on cti to execute command")
       | _ => None
       end;
     w_partial_insert := 0;
     w_partial_delete := fun _ => false;
     w_aggregate := fun _ => [];
     w_find_latest := fun _ => None;
     w_utcnow := fun n => (1700000000 + Z.of_nat n)%Z;
     w_elapsed := "0.42" |}.

(** The bulk insert raises after the server has written two documents of the
    batch: an ordered [insert_many] stops at the first document it cannot
    write and keeps the ones before it. *)
Definition partial_insert_world : world :=
  {| w_dotenv := ∅;
     w_mongo_client := None;
     w_server_info := None;
     w_database := fun _ => None;
     w_close := None;
     w_taxii_server := fun _ => Returns [sample_root];
     w_sleep := fun _ => None;
     w_store_fault := fun site =>
       match site with
       | LoadInsert => Some (Failed "document exceeds the maximum size")
       | _ => None
       end;
     w_partial_insert := 2;
     w_partial_delete := fun _ => false;
     w_aggregate := fun _ => [];
     w_find_latest := fun _ => None;
     w_utcnow := fun n => (1700000000 + Z.of_nat n)%Z;
     w_elapsed := "0.42" |}.

Definition sample_batch : list normalized_record :=
  normalized_from calm_world 0 (List.filter allowlisted (map PDict sample_objects)).

(** The TAXII server cannot be reached at any attempt. *)
Definition offline_feed_world : world :=
  {| w_dotenv := ∅;
     w_mongo_client := None;
     w_server_info := None;
     w_database := fun _ => None;
     w_close := None;
     w_taxii_server := fun attempt =>
       match attempt with
       | 0 => Raises (Failed "Name or service not known")
       | 1 => Returns []
       | _ => Returns [{| ar_title := Raises (Failed "503 Service Unavailable");
                          ar_collections := Returns [] |}]
       end;
     w_sleep := fun _ => None;
     w_store_fault := fun _ => None;
     w_partial_insert := 0;
     w_partial_delete := fun _ => false;
     w_aggregate := fun _ => [];
     w_find_latest := fun _ => None;
     w_utcnow := fun n => (1700000000 + Z.of_nat n)%Z;
     w_elapsed := "0.42" |}.

(** An API root without the Enterprise collection. *)
Definition root_without_enterprise : api_root :=
  {| ar_title := Returns "MITRE ATT&CK";
     ar_collections := Returns [mobile_collection; ics_collection] |}.

(** An API root with two collections that match. *)
Definition later_enterprise : taxii_collection :=
  {| title := "Enterprise ATT&CK v2"; get_objects := Returns (PDict []) |}.

Definition root_with_two_matches : api_root :=
  {| ar_title := Returns "MITRE ATT&CK";
     ar_collections :=
       Returns [mobile_collection; sample_collection; later_enterprise] |}.

(** The Enterprise collection answers with an object that has no [objects]
    field. *)
Definition hollow_collection : taxii_collection :=
  {| title := "Enterprise ATT&CK";
     get_objects := Returns (PDict [("spec_version", PStr "2.1")]) |}.

Definition hollow_feed_world : world :=
  {| w_dotenv := ∅;
     w_mongo_client := None;
     w_server_info := None;
     w_database := fun _ => None;
     w_close := None;
     w_taxii_server := fun _ =>
       Returns [{| ar_title := Returns "MITRE ATT&CK";
                   ar_collections := Returns [mobile_collection; hollow_collection] |}];
     w_sleep := fun _ => None;
     w_store_fault := fun _ => None;
     w_partial_insert := 0;
     w_partial_delete := fun _ => false;
     w_aggregate := fun _ => [];
     w_find_latest := fun _ => None;
     w_utcnow := fun n => (1700000000 + Z.of_nat n)%Z;
     w_elapsed := "0.42" |}.

(** The Enterprise collection answers with a list in which one entry is
    not an object. *)
Definition malformed_collection : taxii_collection :=
  {| title := "Enterprise ATT&CK";
     get_objects :=
       Returns (PDict [("objects",
                        PList [PDict (sample_object "malware--2" "malware");
                               PStr "garbage"])]) |}.

(** ** Vocabulary of the further properties *)

(** Every exception that [m] lets out satisfies [E]. *)
Definition raises (E : exn -> Prop) {A} (m : M A) : Prop :=
  forall w s e s', m w s = (Raise e, s') -> E e.

(** The exception is not a [SystemExit]. *)
Definition not_exit (e : exn) : Prop := forall code, e <> SystemExit code.

(** A [SystemExit] carries the code 1. *)
Definition exit_code_one (e : exn) : Prop :=
  forall code, e = SystemExit code -> code = 1%Z.

(** The exception is not an [Exception]. *)
Definition not_exception (e : exn) : Prop := forall msg, e <> PyException msg.

(** The user interrupts the request for the objects. *)
Definition interrupted_fetch_collection : taxii_collection :=
  {| title := "Enterprise ATT&CK"; get_objects := Raises Interrupted |}.

(** The user interrupts the store at one of its calls. *)
Definition interrupted_store_world (site : store_site) : world :=
  {| w_dotenv := ∅;
     w_mongo_client := None;
     w_server_info := None;
     w_database := fun _ => None;
     w_close := None;
     w_taxii_server := fun _ => Returns [sample_root];
     w_sleep := fun _ => None;
     w_store_fault := fun at_site =>
       match site, at_site with
       | LoadInsert, LoadInsert => Some Interrupted
       | SummaryAggregate, SummaryAggregate => Some Interrupted
       | _, _ => None
       end;
     w_partial_insert := 0;
     w_partial_delete := fun _ => false;
     w_aggregate := fun _ => [];
     w_find_latest := fun _ => None;
     w_utcnow := fun n => (1700000000 + Z.of_nat n)%Z;
     w_elapsed := "0.42" |}.

(** The store is what it was. *)
Definition same_store (s s' : state) : Prop := store s' = store s.

(** The record is the normalized record of an allowlisted source object. *)
Definition well_formed (r : normalized_record) : Prop :=
  allowlisted (raw_object r) = true /\
  r = normalized (raw_object r) (ingested_at r).

(** A response in which one object of the allowlist follows an entry that
    is a number, and one in which no object is of the allowlist. *)
Definition mixed_collection : taxii_collection :=
  {| title := "Enterprise ATT&CK";
     get_objects :=
       Returns (PDict [("objects",
                        PList [PDict (sample_object "malware--2" "malware");
                               PDict [("type", PInt 7)];
                               PDict [("id", PStr "no type")]])]) |}.

(** The aggregation query of the summary is refused by the store. *)
Definition failing_summary_world : world :=
  {| w_dotenv := ∅;
     w_mongo_client := None;
     w_server_info := None;
     w_database := fun _ => None;
     w_close := None;
     w_taxii_server := fun _ => Returns [sample_root];
     w_sleep := fun _ => None;
     w_store_fault := fun site =>
       match site with
       | SummaryAggregate => Some (Failed "not authorized to aggregate")
       | _ => None
       end;
     w_partial_insert := 0;
     w_partial_delete := fun _ => false;
     w_aggregate := fun _ => [];
     w_find_latest := fun _ => None;
     w_utcnow := fun n => (1700000000 + Z.of_nat n)%Z;
     w_elapsed := "0.42" |}.

(** The store answers every call of the load but the count that verifies
    the insertion. *)
Definition failing_verify_world : world :=
  {| w_dotenv := ∅;
     w_mongo_client := None;
     w_server_info := None;
     w_database := fun _ => None;
     w_close := None;
     w_taxii_server := fun _ => Returns [sample_root];
     w_sleep := fun _ => None;
     w_store_fault := fun site =>
       match site with
       | LoadVerify => Some (Failed "connection reset by peer")
       | _ => None
       end;
     w_partial_insert := 0;
     w_partial_delete := fun _ => false;
     w_aggregate := fun _ => [];
     w_find_latest := fun _ => None;
     w_utcnow := fun n => (1700000000 + Z.of_nat n)%Z;
     w_elapsed := "0.42" |}.

(** The store refuses the deletion. *)
Definition failing_delete_world : world :=
  {| w_dotenv := ∅;
     w_mongo_client := None;
     w_server_info := None;
     w_database := fun _ => None;
     w_close := None;
     w_taxii_server := fun _ => Returns [sample_root];
     w_sleep := fun _ => None;
     w_store_fault := fun site =>
       match site with
       | LoadDelete => Some (Failed "not authorized on cti to execute command")
       | _ => None
       end;
     w_partial_insert := 0;
     w_partial_delete := fun _ => false;
     w_aggregate := fun _ => [];
     w_find_latest := fun _ => None;
     w_utcnow := fun n => (1700000000 + Z.of_nat n)%Z;
     w_elapsed := "0.42" |}.

(** The driver calls that a load of a non-empty batch makes on a
    collection that holds [prior], in the order of the calls, and the first
    of a list of calls that does not return. *)
Definition load_sites (prior : list document) : list store_site :=
  match prior with
  | [] => [LoadCount; LoadInsert; LoadVerify]
  | _ :: _ => [LoadCount; LoadDelete; LoadInsert; LoadVerify]
  end.

Fixpoint first_fault (w : world) (sites : list store_site) : option failure :=
  match sites with
  | [] => None
  | site :: rest =>
      match w_store_fault w site with
      | Some f => Some f
      | None => first_fault w rest
      end
  end.

(** The number of [insert_many] calls of a trace. *)
Definition insert_calls (t : list event) : nat :=
  length (List.filter (fun ev => match ev with
                                 | Called (StoreCall _ (InsertMany _)) _ => true
                                 | _ => false
                                 end) t).

(** The TAXII server answers at the third attempt only. *)
Definition slow_feed_world : world :=
  {| w_dotenv := ∅;
     w_mongo_client := None;
     w_server_info := None;
     w_database := fun _ => None;
     w_close := None;
     w_taxii_server := fun attempt =>
       match attempt with
       | 0 => Raises (Failed "Name or service not known")
       | 1 => Returns []
       | _ => Returns [sample_root; root_without_enterprise]
       end;
     w_sleep := fun _ => None;
     w_store_fault := fun _ => None;
     w_partial_insert := 0;
     w_partial_delete := fun _ => false;
     w_aggregate := fun _ => [];
     w_find_latest := fun _ => None;
     w_utcnow := fun n => (1700000000 + Z.of_nat n)%Z;
     w_elapsed := "0.42" |}.

(** An API root whose enumeration is empty, and one whose enumeration
    cannot be read. *)
Definition empty_root : api_root :=
  {| ar_title := Returns "MITRE ATT&CK"; ar_collections := Returns [] |}.

Definition unreadable_root : api_root :=
  {| ar_title := Returns "MITRE ATT&CK";
     ar_collections := Raises (Failed "406 Not Acceptable") |}.

(** The store refuses the credentials at the probe. *)
Definition denied_store_world : world :=
  {| w_dotenv := <["MONGO_DB" := "cti"]> ∅;
     w_mongo_client := None;
     w_server_info := Some (Failed "Authentication failed.");
     w_database := fun _ => None;
     w_close := None;
     w_taxii_server := fun _ => Returns [sample_root];
     w_sleep := fun _ => None;
     w_store_fault := fun _ => None;
     w_partial_insert := 0;
     w_partial_delete := fun _ => false;
     w_aggregate := fun _ => [];
     w_find_latest := fun _ => None;
     w_utcnow := fun n => (1700000000 + Z.of_nat n)%Z;
     w_elapsed := "0.42" |}.

(** The Enterprise collection holds objects, none of the allowlist. *)
Definition foreign_objects : list (list (string * pyval)) :=
  [sample_object "course-of-action--3" "course-of-action";
   sample_object "tool--5" "tool";
   [("id", PStr "untyped")]].

Definition foreign_response : list (string * pyval) :=
  [("objects", PList (map PDict foreign_objects))].

Definition foreign_collection : taxii_collection :=
  {| title := "Enterprise ATT&CK"; get_objects := Returns (PDict foreign_response) |}.

Definition foreign_feed_world : world :=
  {| w_dotenv := ∅;
     w_mongo_client := None;
     w_server_info := None;
     w_database := fun _ => None;
     w_close := None;
     w_taxii_server := fun _ =>
       Returns [{| ar_title := Returns "MITRE ATT&CK";
                   ar_collections := Returns [foreign_collection] |}];
     w_sleep := fun _ => None;
     w_store_fault := fun _ => None;
     w_partial_insert := 0;
     w_partial_delete := fun _ => false;
     w_aggregate := fun _ => [];
     w_find_latest := fun _ => None;
     w_utcnow := fun n => (1700000000 + Z.of_nat n)%Z;
     w_elapsed := "0.42" |}.

(** The number of records of a type, and the sum of the counts of a
    breakdown. *)
Definition count_of (t : string) (l : list normalized_record) : nat :=
  length (List.filter (fun r => String.eqb (object_type r) t) l).

Definition total (type_counts : list (string * nat)) : nat :=
  fold_right (fun item n => snd item + n) 0 type_counts.

(** [type_counts.get(t, 0)] *)
Fixpoint counted (type_counts : list (string * nat)) (t : string) : nat :=
  match type_counts with
  | [] => 0
  | (k, c) :: rest => if String.eqb k t then c else counted rest t
  end.

(** The distinct strings of a list, in the order of their first
    occurrence. *)
Definition first_occurrences (ts : list string) : list string :=
  fold_left (fun seen t => if existsb (String.eqb t) seen then seen
                           else seen ++ [t]) ts [].

(** Nothing outside fails at the places a successful run goes through:
    the store accepts the connection, the probe and the database name, the
    server answers the first attempt, no driver call on the collection
    fails and the client closes. *)
Definition healthy (w : world) (env : gmap string string) : Prop :=
  w_mongo_client w = None /\
  w_server_info w = None /\
  w_database w (configured_db w env) = None /\
  w_close w = None /\
  forall site, w_store_fault w site = None.

(** The user interrupts the request for the objects of the Enterprise
    collection. *)
Definition interrupted_fetch_world : world :=
  {| w_dotenv := ∅;
     w_mongo_client := None;
     w_server_info := None;
     w_database := fun _ => None;
     w_close := None;
     w_taxii_server := fun _ =>
       Returns [{| ar_title := Returns "MITRE ATT&CK";
                   ar_collections := Returns [interrupted_fetch_collection] |}];
     w_sleep := fun _ => None;
     w_store_fault := fun _ => None;
     w_partial_insert := 0;
     w_partial_delete := fun _ => false;
     w_aggregate := fun _ => [];
     w_find_latest := fun _ => None;
     w_utcnow := fun n => (1700000000 + Z.of_nat n)%Z;
     w_elapsed := "0.42" |}.

(** * Properties *)

(** ** The monad *)

Lemma bind_ok {A B} (m : M A) (k : A -> M B) w s a s' :
  m w s = (Ok a, s') -> bind m k w s = k a w s'.
Proof. unfold bind. intros ->. reflexivity. Qed.

Lemma bind_raise {A B} (m : M A) (k : A -> M B) w s e s' :
  m w s = (Raise e, s') -> bind m k w s = (Raise e, s').
Proof. unfold bind. intros ->. reflexivity. Qed.

Lemma try_except_caught {A} (body : M A) handler w s msg s' :
  body w s = (Raise (PyException msg), s') ->
  try_except body handler w s = handler msg w s'.
Proof. unfold try_except. intros ->. reflexivity. Qed.

(** ** The transform loop *)

Lemma in_target_types_allowlisted kv :
  in_target_types (default PNone (dict_lookup kv "type")) =
  if allowlisted (PDict kv) then type_tag (PDict kv) else None.
Proof.
  unfold allowlisted, type_tag, in_target_types, target_types.
  destruct (dict_lookup kv "type") as [[]|]; simpl; try reflexivity.
  all: destruct (_ || _); reflexivity.
Qed.

Lemma transform_loop_dicts w s ds acc :
  transform_loop (map PDict ds) acc w s =
  (Ok (acc ++ normalized_from w (length acc)
                (List.filter allowlisted (map PDict ds))), s).
Proof.
  revert acc. induction ds as [|kv ds IH]; intros acc.
  - simpl. rewrite app_nil_r. reflexivity.
  - cbn [map transform_loop List.filter].
    unfold py_get at 1. unfold bind at 1. cbn [ret].
    rewrite in_target_types_allowlisted.
    destruct (allowlisted (PDict kv)) eqn:Hk.
    + unfold allowlisted in Hk.
      destruct (type_tag (PDict kv)) as [t|] eqn:Ht; [|discriminate].
      unfold py_get, utcnow, bind, ret. cbn beta iota.
      rewrite IH. rewrite length_app. simpl length.
      replace (length acc + 1) with (S (length acc)) by lia.
      rewrite <- app_assoc. simpl.
      unfold normalized, attribute. rewrite Ht. reflexivity.
    + apply IH.
Qed.

(** Symbolic execution of a computation: unfold the monad's operations
    and reduce what the known answers decide. *)
Ltac exec :=
  cbv beta iota zeta delta
    [bind ret raise sys_exit try_except try_finally call_out log print emit
     ask fault exn_of py_in py_item py_len py_iter py_get utcnow getenv
     load_dotenv local_client assign_client negb].

Lemma record_events_nil s : record_events [] s = s.
Proof. destruct s. unfold record_events. simpl. rewrite app_nil_r. reflexivity. Qed.

Lemma record_events_app evs1 evs2 s :
  record_events evs2 (record_events evs1 s) = record_events (evs1 ++ evs2) s.
Proof. unfold record_events. simpl. rewrite <- app_assoc. reflexivity. Qed.

(** A loop that only logs or prints, in the form [exec] leaves it. *)
Lemma for_each_events {A} (l : list A) (ev : A -> event) w s :
  for_each l (fun x (_ : world) (s0 : state) => (Ok tt, record_events [ev x] s0))
           w s =
  (Ok tt, record_events (map ev l) s).
Proof.
  revert s. induction l as [|x l IH]; intros s.
  - simpl. unfold ret. rewrite record_events_nil. reflexivity.
  - simpl. unfold bind. rewrite IH, record_events_app. reflexivity.
Qed.

Lemma fetch_well_formed w s ec kv ds :
  get_objects ec = Returns (PDict kv) ->
  dict_lookup kv "objects" = Some (PList (map PDict ds)) ->
  exists s',
    fetch_and_transform_data ec w s =
    (Ok (normalized_from w 0 (List.filter allowlisted (map PDict ds))), s').
Proof.
  intros Hget Hobjs.
  assert (Htruthy : truthy (PDict kv) = true).
  { destruct kv; [discriminate | reflexivity]. }
  unfold fetch_and_transform_data, fetch_body.
  exec. rewrite Hget. exec. rewrite Htruthy. exec. 
  rewrite Hobjs. exec.
  rewrite transform_loop_dicts. exec.
  rewrite for_each_events. eexists. reflexivity.
Qed.

Lemma raw_object_normalized_from w n objs :
  map raw_object (normalized_from w n objs) = objs.
Proof.
  revert n. induction objs as [|obj objs IH]; intros n; simpl.
  - reflexivity.
  - rewrite IH. reflexivity.
Qed.

Lemma length_normalized_from w n objs :
  length (normalized_from w n objs) = length objs.
Proof.
  rewrite <- (raw_object_normalized_from w n objs) at 2.
  symmetry. apply length_map.
Qed.

Lemma nth_error_normalized_from w n objs i :
  nth_error (normalized_from w n objs) i =
  option_map (fun obj => normalized obj (w_utcnow w (n + i))) (nth_error objs i).
Proof.
  revert n i. induction objs as [|obj objs IH]; intros n [|i]; simpl; try reflexivity.
  - rewrite Nat.add_0_r. reflexivity.
  - rewrite IH. replace (S n + i) with (n + S i) by lia. reflexivity.
Qed.

Lemma filter_keeps_all {A} (f : A -> bool) (l : list A) :
  length (List.filter f l) = length l <-> Forall (fun x => f x = true) l.
Proof.
  induction l as [|x l IH]; simpl.
  - split; [constructor | reflexivity].
  - pose proof (List.filter_length_le f l) as Hle.
    destruct (f x) eqn:Hx; simpl.
    + split.
      * intros H. constructor; [assumption | apply IH; lia].
      * intros H. inversion H; subst. f_equal. apply IH. assumption.
    + split.
      * intros H. lia.
      * intros H. inversion H; subst. congruence.
Qed.

Lemma filter_map_swap {A B} (f : A -> B) (p : B -> bool) (l : list A) :
  List.filter p (map f l) = map f (List.filter (fun x => p (f x)) l).
Proof.
  induction l as [|x l IH]; simpl; [reflexivity|].
  destruct (p (f x)); simpl; rewrite IH; reflexivity.
Qed.

(** C1: on a response whose [objects] are source objects, the step returns
    one record for exactly the objects whose type tag is "attack-pattern",
    "intrusion-set" or "malware" and none for the others; the records are
    never more than the objects, and as many iff every object is
    allowlisted. *)
Theorem transform_retains_allowlisted w s ec kv ds :
  get_objects ec = Returns (PDict kv) ->
  dict_lookup kv "objects" = Some (PList (map PDict ds)) ->
  exists out s',
    fetch_and_transform_data ec w s = (Ok out, s') /\
    map raw_object out = List.filter allowlisted (map PDict ds) /\
    (forall obj, In obj (map raw_object out) <->
                 In obj (map PDict ds) /\ allowlisted obj = true) /\
    length out <= length ds /\
    (length out = length ds <->
     Forall (fun obj => allowlisted obj = true) (map PDict ds)).
Proof.
  intros Hget Hobjs.
  destruct (fetch_well_formed w s ec kv ds Hget Hobjs) as [s' Hrun].
  eexists. exists s'. split; [exact Hrun|].
  rewrite raw_object_normalized_from, length_normalized_from.
  split; [reflexivity|]. split; [|split].
  - intros obj. apply List.filter_In.
  - rewrite <- (length_map PDict ds). apply List.filter_length_le.
  - rewrite <- (length_map PDict ds). apply filter_keeps_all.
Qed.

Lemma transform_retains_allowlisted_witness :
  exists out s',
    fetch_and_transform_data sample_collection calm_world (initial ∅ ∅) = (Ok out, s') /\
    map raw_object out = List.filter allowlisted (map PDict sample_objects) /\
    (forall obj, In obj (map raw_object out) <->
                 In obj (map PDict sample_objects) /\ allowlisted obj = true) /\
    length out <= length sample_objects /\
    (length out = length sample_objects <->
     Forall (fun obj => allowlisted obj = true) (map PDict sample_objects)).
Proof.
  apply (transform_retains_allowlisted calm_world (initial ∅ ∅)
           sample_collection sample_response sample_objects);
    reflexivity.
Defined.

(** The scenario of five objects: four records, the course-of-action
    object dropped. *)
Example transform_five_objects :
  map object_type
      (match fst (fetch_and_transform_data sample_collection calm_world (initial ∅ ∅)) with
       | Ok out => out
       | Raise _ => []
       end) =
  ["attack-pattern"; "malware"; "intrusion-set"; "malware"].
Proof. vm_compute. reflexivity. Qed.

(** C9: the records come in fetch order, one per allowlisted object: the
    i-th record is the normalized record of the i-th allowlisted object,
    stamped with the i-th reading of the clock; objects that agree on any
    attribute, their id included, yield as many records as there are such
    objects. *)
Theorem transform_preserves_order_and_multiplicity w s ec kv ds :
  get_objects ec = Returns (PDict kv) ->
  dict_lookup kv "objects" = Some (PList (map PDict ds)) ->
  exists out s',
    fetch_and_transform_data ec w s = (Ok out, s') /\
    length out = length (List.filter allowlisted (map PDict ds)) /\
    (forall i,
       nth_error out i =
       option_map (fun obj => normalized obj (w_utcnow w i))
                  (nth_error (List.filter allowlisted (map PDict ds)) i)) /\
    (forall p : pyval -> bool,
       length (List.filter (fun r => p (raw_object r)) out) =
       length (List.filter p (List.filter allowlisted (map PDict ds)))).
Proof.
  intros Hget Hobjs.
  destruct (fetch_well_formed w s ec kv ds Hget Hobjs) as [s' Hrun].
  eexists. exists s'. split; [exact Hrun|].
  split; [apply length_normalized_from|]. split.
  - intros i. apply nth_error_normalized_from.
  - intros p.
    set (out := normalized_from w 0 (List.filter allowlisted (map PDict ds))).
    rewrite <- (raw_object_normalized_from w 0
                  (List.filter allowlisted (map PDict ds))).
    fold out. rewrite filter_map_swap, length_map. reflexivity.
Qed.

Lemma transform_preserves_order_and_multiplicity_witness :
  exists out s',
    fetch_and_transform_data sample_collection calm_world (initial ∅ ∅) = (Ok out, s') /\
    length out = length (List.filter allowlisted (map PDict sample_objects)) /\
    (forall i,
       nth_error out i =
       option_map (fun obj => normalized obj (w_utcnow calm_world i))
                  (nth_error (List.filter allowlisted (map PDict sample_objects)) i)) /\
    (forall p : pyval -> bool,
       length (List.filter (fun r => p (raw_object r)) out) =
       length (List.filter p (List.filter allowlisted (map PDict sample_objects)))).
Proof.
  apply (transform_preserves_order_and_multiplicity calm_world (initial ∅ ∅)
           sample_collection sample_response sample_objects);
    reflexivity.
Defined.

(** Two objects with the same id are both kept. *)
Example transform_keeps_duplicates :
  map mitre_id
      (match fst (fetch_and_transform_data sample_collection calm_world (initial ∅ ∅)) with
       | Ok out => out
       | Raise _ => []
       end) =
  [PStr "attack-pattern--1"; PStr "malware--2"; PStr "intrusion-set--4";
   PStr "malware--2"].
Proof. vm_compute. reflexivity. Qed.

(** ** Stepwise reasoning

    A relation on states that is reflexive and transitive and that every
    primitive step respects is respected by every function of the script.
    [P] says which events the relation admits and [owned] which collections
    it lets a computation write. *)

Section Stepwise.
Variable R : state -> state -> Prop.
Variable P : event -> Prop.
Variable owned : handle -> Prop.

Hypothesis R_refl : forall s, R s s.
Hypothesis R_trans : forall s1 s2 s3, R s1 s2 -> R s2 s3 -> R s1 s3.
Hypothesis R_event : forall ev s, P ev -> R s (record_events [ev] s).
Hypothesis R_environ : forall env s, R s (set_environ env s).
Hypothesis R_store :
  forall h docs s, owned h -> R s (set_store (<[h := docs]> (store s)) s).
Hypothesis R_client : forall c s, R s (set_main_client c s).
Hypothesis P_log : forall l msg, P (Log l msg).
Hypothesis P_print : forall msg, P (Print msg).
Hypothesis P_outward : forall c b, outward c = true -> P (Called c b).
Hypothesis P_store : forall h op b, owned h -> P (Called (StoreCall h op) b).

Lemma respects_ret {A} (a : A) : respects R (ret a).
Proof. intros w s r s' E. inversion E; subst. apply R_refl. Qed.

Lemma respects_raise {A} (e : exn) : respects R (@raise A e).
Proof. intros w s r s' E. inversion E; subst. apply R_refl. Qed.

Lemma respects_bind {A B} (m : M A) (k : A -> M B) :
  respects R m -> (forall a, respects R (k a)) -> respects R (bind m k).
Proof.
  intros Hm Hk w s r s' E. unfold bind in E.
  destruct (m w s) as [[a|e] s1] eqn:Em.
  - eapply R_trans; [eapply Hm; eassumption | eapply Hk; eassumption].
  - inversion E; subst. eapply Hm; eassumption.
Qed.

Lemma respects_try_except {A} (body : M A) handler :
  respects R body -> (forall msg, respects R (handler msg)) ->
  respects R (try_except body handler).
Proof.
  intros Hb Hh w s r s' E. unfold try_except in E.
  destruct (body w s) as [[a|[c| |msg]] s1] eqn:Eb;
    try (inversion E; subst; eapply Hb; eassumption).
  eapply R_trans; [eapply Hb; eassumption | eapply Hh; eassumption].
Qed.

Lemma respects_emit ev : P ev -> respects R (emit ev).
Proof. intros Hev w s r s' E. inversion E; subst. apply R_event, Hev. Qed.

Lemma respects_log l msg : respects R (log l msg).
Proof. apply respects_emit, P_log. Qed.

Lemma respects_print msg : respects R (print msg).
Proof. apply respects_emit, P_print. Qed.

Lemma respects_call {A} c (ans : answer A) :
  P (Called c true) -> P (Called c false) -> respects R (call_out c ans).
Proof.
  intros Ht Hf. destruct ans; simpl.
  - apply respects_bind; [apply respects_emit, Ht | intros; apply respects_ret].
  - apply respects_bind; [apply respects_emit, Hf | intros; apply respects_raise].
Qed.

Lemma respects_call_out {A} c (ans : answer A) :
  outward c = true -> respects R (call_out c ans).
Proof. intros Hc. apply respects_call; apply P_outward, Hc. Qed.

Lemma respects_reader {A} (f : world -> state -> A) :
  respects R (fun w s => (Ok (f w s), s)).
Proof. intros w s r s' E. inversion E; subst. apply R_refl. Qed.

Lemma respects_load_dotenv : respects R load_dotenv.
Proof. intros w s r s' E. inversion E; subst. apply R_environ. Qed.

Lemma respects_write_docs h docs : owned h -> respects R (write_docs h docs).
Proof. intros Hh w s r s' E. inversion E; subst. apply R_store, Hh. Qed.

Ltac step :=
  match goal with
  | |- respects _ (bind _ _) => apply respects_bind; [|intros]
  | |- respects _ (ret _) => apply respects_ret
  | |- respects _ (raise _) => apply respects_raise
  | |- respects _ (sys_exit _) => apply respects_raise
  | |- respects _ (try_except _ _) => apply respects_try_except; [|intros]
  | |- respects _ (log _ _) => apply respects_log
  | |- respects _ (print _) => apply respects_print
  | |- respects _ (call_out (StoreCall _ _) _) =>
      apply respects_call; apply P_store; assumption
  | |- respects _ (call_out _ _) => apply respects_call_out; reflexivity
  | |- respects _ ask => apply (respects_reader (fun w _ => w))
  | |- respects _ (getenv ?k) => apply (respects_reader (fun _ s => environ s !! k))
  | |- respects _ (utcnow ?n) => apply (respects_reader (fun w _ => w_utcnow w n))
  | |- respects _ local_client => apply (respects_reader (fun _ s => main_client s))
  | |- respects _ (read_docs ?h) =>
      apply (respects_reader (fun _ s => docs_of (store s) h))
  | |- respects _ load_dotenv => apply respects_load_dotenv
  | |- respects _ (write_docs _ _) => apply respects_write_docs; assumption
  | |- respects _ (match ?x with _ => _ end) => destruct x
  end.

Lemma respects_for_each {A} (l : list A) (body : A -> M unit) :
  (forall x, respects R (body x)) -> respects R (for_each l body).
Proof.
  intros Hb. induction l as [|x l IH]; simpl; [step|].
  step; [apply Hb | exact IH].
Qed.

Lemma respects_py_get obj key dflt : respects R (py_get obj key dflt).
Proof. unfold py_get. repeat step. Qed.

Lemma respects_py_in key v : respects R (py_in key v).
Proof. unfold py_in. repeat step. Qed.

Lemma respects_py_item v key : respects R (py_item v key).
Proof. unfold py_item. repeat step. Qed.

Lemma respects_py_len v : respects R (py_len v).
Proof. unfold py_len. repeat step. Qed.

Lemma respects_py_iter v : respects R (py_iter v).
Proof. unfold py_iter. repeat step. Qed.

Lemma respects_load_environment : respects R load_environment.
Proof. unfold load_environment. repeat step. Qed.

Lemma respects_connect_to_mongodb uri db :
  respects R (connect_to_mongodb uri db).
Proof. unfold connect_to_mongodb. repeat step. Qed.

Lemma respects_taxii_attempt attempt : respects R (taxii_attempt attempt).
Proof. unfold taxii_attempt. repeat step. Qed.

Lemma respects_taxii_loop attempts : respects R (taxii_loop attempts).
Proof.
  induction attempts as [|a rest IH]; simpl; [step|].
  step; [apply respects_taxii_attempt|]. step; [step | exact IH].
Qed.

Lemma respects_connect_to_taxii_server : respects R connect_to_taxii_server.
Proof. apply respects_taxii_loop. Qed.

Lemma respects_get_enterprise_collection root :
  respects R (get_enterprise_collection root).
Proof.
  unfold get_enterprise_collection.
  repeat first [apply respects_for_each; intros | step].
Qed.

Lemma respects_transform_loop objects transformed :
  respects R (transform_loop objects transformed).
Proof.
  revert transformed. induction objects as [|obj rest IH]; intros acc; simpl.
  - step.
  - step; [apply respects_py_get|]. step; [|apply IH].
    repeat first [apply respects_py_get | apply IH | step].
Qed.

Lemma respects_fetch_and_transform_data ec :
  respects R (fetch_and_transform_data ec).
Proof.
  unfold fetch_and_transform_data, fetch_body.
  repeat first [apply respects_for_each; intros | apply respects_py_in
               | apply respects_py_item | apply respects_py_len
               | apply respects_py_iter | apply respects_transform_loop | step].
Qed.

Lemma respects_store_read {A} site h op (result_of : world -> list document -> A) :
  owned h -> respects R (store_read site h op result_of).
Proof. intros Hh. unfold store_read. repeat step. Qed.

Lemma respects_store_write site h op update partial :
  owned h -> respects R (store_write site h op update partial).
Proof. intros Hh. unfold store_write. repeat step. Qed.

Lemma respects_load_to_mongodb h batch :
  owned h -> respects R (load_to_mongodb h batch).
Proof.
  intros Hh. unfold load_to_mongodb, count_documents, delete_many, insert_many.
  repeat first [apply respects_store_read; assumption
               | apply respects_store_write; assumption | step].
Qed.

Lemma respects_print_summary h : owned h -> respects R (print_summary h).
Proof.
  intros Hh. unfold print_summary, count_documents.
  repeat first [apply respects_store_read; assumption
               | apply respects_for_each; intros | step].
Qed.

(** The steps of [main]. *)

Lemma respects_open_store : respects R open_store.
Proof.
  unfold open_store. apply respects_bind; auto.
  - eapply respects_load_environment; eauto.
  - intros cfg. eapply respects_connect_to_mongodb; eauto.
Qed.

Lemma respects_assign_client c : respects R (assign_client c).
Proof. intros w s r s' E. inversion E; subst. apply R_client. Qed.

Lemma respects_locate_collection : respects R locate_collection.
Proof.
  unfold locate_collection. apply respects_bind; auto.
  - eapply respects_connect_to_taxii_server; eauto.
  - intros [[server root]|]; [|apply respects_raise; auto].
    eapply respects_get_enterprise_collection; eauto.
Qed.

Lemma respects_reach_fetch : respects R reach_fetch.
Proof.
  unfold reach_fetch.
  apply respects_bind; auto; [apply respects_open_store | intros conn].
  apply respects_bind; auto; [apply respects_assign_client | intros _].
  apply respects_bind; auto; [apply respects_locate_collection | intros ec].
  apply respects_ret; auto.
Qed.

Lemma respects_fetch_load_report h ec :
  owned h -> respects R (fetch_load_report h ec).
Proof.
  intros Hh. unfold fetch_load_report.
  apply respects_bind; auto.
  { eapply respects_fetch_and_transform_data; eauto. }
  intros batch. apply respects_bind; auto.
  { eapply respects_load_to_mongodb; eauto. }
  intros [|].
  - apply respects_bind; auto.
    { eapply respects_print_summary; eauto. }
    intros _. apply respects_bind; auto.
    { apply (respects_reader (fun w _ => w)). }
    intros w. eapply respects_log; eauto.
  - apply respects_bind; auto.
    { eapply respects_log; eauto. }
    intros _. apply respects_raise; auto.
Qed.
End Stepwise.

Lemma main_body_split w s :
  main_body w s =
  (reached <- reach_fetch ;; fetch_load_report (fst reached) (snd reached)) w s.
Proof.
  unfold main_body, reach_fetch, locate_collection, open_store, bind.
  destruct (load_environment w s) as [[[uri db]|e] s1]; [|reflexivity].
  cbn [fst snd].
  destruct (connect_to_mongodb uri db w s1) as [[[[c d] h]|e] s2]; [|reflexivity].
  cbn [fst snd].
  destruct (assign_client c w s2) as [[u|e] s3]; [|reflexivity].
  destruct (connect_to_taxii_server w s3) as [[[[server root]|]|e] s4];
    try reflexivity.
  destruct (get_enterprise_collection root w s4) as [[ec|e] s5]; reflexivity.
Qed.

(** ** Instances of the stepwise relation *)

Lemma evolves_refl P Q s : evolves P Q s s.
Proof.
  split; [|reflexivity]. exists []. split; [|constructor].
  symmetry. apply app_nil_r.
Qed.

Lemma evolves_trans P Q s1 s2 s3 :
  evolves P Q s1 s2 -> evolves P Q s2 s3 -> evolves P Q s1 s3.
Proof.
  intros [[evs1 [E1 F1]] S1] [[evs2 [E2 F2]] S2]. split.
  - exists (evs1 ++ evs2). split.
    + rewrite E2, E1, app_assoc. reflexivity.
    + apply Forall_app. split; assumption.
  - intros k Hk. rewrite S2, S1 by assumption. reflexivity.
Qed.

Lemma evolves_event P Q ev s : P ev -> evolves P Q s (record_events [ev] s).
Proof.
  intros Hev. split; [|reflexivity].
  exists [ev]. split; [reflexivity | constructor; [assumption | constructor]].
Qed.

Lemma evolves_environ P Q env s : evolves P Q s (set_environ env s).
Proof. apply (evolves_refl P Q s). Qed.

Lemma evolves_client P Q c s : evolves P Q s (set_main_client c s).
Proof. apply (evolves_refl P Q s). Qed.

Lemma evolves_store P (Q : handle -> Prop) h docs s :
  Q h -> evolves P Q s (set_store (<[h := docs]> (store s)) s).
Proof.
  intros Hh. split.
  - exists []. split; [|constructor]. symmetry. apply app_nil_r.
  - intros k Hk. simpl. apply lookup_insert_ne. intros ->. contradiction.
Qed.

Lemma same_client_trans s1 s2 s3 :
  same_client s1 s2 -> same_client s2 s3 -> same_client s1 s3.
Proof. unfold same_client. congruence. Qed.

(** Discharges the premises of a stepwise lemma at [evolves P Q]. *)
Ltac evolves_premise :=
  first
    [ apply evolves_refl | apply evolves_trans | apply evolves_event
    | apply evolves_environ | apply evolves_client | apply evolves_store
    | assumption
    | (let c := fresh "c" in
       intros c; destruct c; simpl; intros;
       first [reflexivity | discriminate | contradiction | congruence | tauto])
    | (simpl; intros;
       first [reflexivity | discriminate | contradiction | congruence | tauto]) ].

(** Discharges the premises of a stepwise lemma at [same_client]. *)
Ltac same_client_premise :=
  first [ exact same_client_trans
        | (unfold same_client; intros; reflexivity)
        | (intros; exact I) | assumption ].

(** ** The cleanup step of [main] *)

Lemma run_unfold w env db :
  run w env db =
  try_finally (main_handlers main_body) main_cleanup w (started env db).
Proof. reflexivity. Qed.

Lemma main_handlers_spec body w s :
  main_handlers body w s =
  match body w s with
  | (Raise KeyboardInterrupt, s') =>
      (Raise (SystemExit 1),
       record_events [Log WARNING "ETL pipeline interrupted by user"] s')
  | (Raise (PyException e), s') =>
      (Raise (SystemExit 1),
       record_events [Log ERROR ("Unexpected error in ETL pipeline: " +:+ e)] s')
  | other => other
  end.
Proof.
  unfold main_handlers. destruct (body w s) as [[a|[c| |msg]] s']; reflexivity.
Qed.

Lemma main_cleanup_spec w s :
  main_cleanup w s =
  match main_client s with
  | None => (Ok tt, s)
  | Some _ =>
      match w_close w with
      | None =>
          (Ok tt, record_events [Called ClientClose true;
                                 Log INFO "MongoDB connection closed"] s)
      | Some f => (Raise (exn_of f), record_events [Called ClientClose false] s)
      end
  end.
Proof.
  unfold main_cleanup. exec.
  destruct (main_client s); [|reflexivity].
  destruct (w_close w); exec; [reflexivity|].
  rewrite record_events_app. reflexivity.
Qed.

Lemma close_calls_app t1 t2 :
  close_calls (t1 ++ t2) = close_calls t1 + close_calls t2.
Proof. unfold close_calls. rewrite List.filter_app, length_app. reflexivity. Qed.

Lemma close_calls_quiet evs :
  Forall not_close evs -> close_calls evs = 0.
Proof.
  unfold close_calls. induction 1 as [|ev evs Hev _ IH]; simpl; [reflexivity|].
  unfold not_close in Hev. rewrite Hev. exact IH.
Qed.

Lemma main_body_no_close :
  respects (evolves not_close any_collection) main_body.
Proof.
  intros w s r s' E. rewrite main_body_split in E. revert w s r s' E.
  apply respects_bind.
  - apply evolves_trans.
  - eapply respects_reach_fetch; unfold not_close, any_collection; evolves_premise.
  - intros [h ec].
    eapply respects_fetch_load_report with (owned := any_collection);
      unfold not_close, any_collection; try exact I; evolves_premise.
Qed.

Lemma main_body_client w s r s' :
  main_client s = None ->
  main_body w s = (r, s') ->
  main_client s' =
  match fst (open_store w s) with
  | Ok (client, _, _) => Some client
  | Raise _ => None
  end.
Proof.
  intros Hnone E. rewrite main_body_split in E.
  unfold reach_fetch in E. unfold bind at 1 2 in E.
  destruct (open_store w s) as [[[[c d] h]|e] s1] eqn:Eopen; cbn [fst snd] in *.
  - unfold bind at 1 in E. cbn [assign_client] in E.
    assert (Hrest : same_client (set_main_client c s1) s').
    { revert E.
      generalize (set_main_client c s1). intros s2 E.
      unfold bind at 1 in E.
      destruct (locate_collection w s2) as [[ec|e] s3] eqn:El.
      - eapply same_client_trans.
        + eapply respects_locate_collection with (P := any_event);
          [..|exact El]; same_client_premise.
        + cbn [ret fst snd] in E.
          eapply respects_fetch_load_report
            with (P := any_event) (owned := any_collection);
            [..|exact E]; same_client_premise.
      - inversion E; subst.
        eapply respects_locate_collection with (P := any_event);
          [..|exact El]; same_client_premise. }
    unfold same_client in Hrest. exact Hrest.
  - inversion E; subst. rewrite <- Hnone. change (same_client s s').
    eapply respects_open_store with (R := same_client) (P := any_event);
      [..|exact Eopen]; same_client_premise.
Qed.

(** C7, as the code has it: the cleanup step closes the client exactly
    once on every exit path on which [main] holds it, that is when the
    store connector returned it, and makes no close call on the others;
    no other step of the run closes it. *)
Theorem cleanup_closes_client_of_main w env db :
  close_calls (trace (snd (run w env db))) =
    match main_client (snd (run w env db)) with
    | Some _ => 1
    | None => 0
    end /\
  main_client (snd (run w env db)) =
    match fst (open_store w (started env db)) with
    | Ok (client, _, _) => Some client
    | Raise _ => None
    end.
Proof.
  rewrite run_unfold. unfold try_finally.
  destruct (main_handlers main_body w (started env db)) as [r s2] eqn:Eh.
  rewrite main_handlers_spec in Eh.
  destruct (main_body w (started env db)) as [rb s1] eqn:Eb.
  pose proof (main_body_client w (started env db) rb s1 eq_refl Eb) as Hclient.
  destruct (main_body_no_close w (started env db) rb s1 Eb) as [[evs [Htrace Hquiet]] _].
  assert (H2 : main_client s2 = main_client s1 /\
               close_calls (trace s2) = 0).
  { assert (H1 : close_calls (trace s1) = 0).
    { rewrite Htrace, close_calls_app, (close_calls_quiet evs Hquiet).
      reflexivity. }
    destruct rb as [a|[c| |msg]]; inversion Eh; subst; split;
      try reflexivity; try exact H1.
    all: simpl; rewrite close_calls_app, H1; reflexivity. }
  destruct H2 as [Hc2 Hn2]. rewrite <- Hclient, <- Hc2.
  rewrite main_cleanup_spec.
  destruct (main_client s2) as [client|] eqn:Hm2.
  - destruct (w_close w); simpl; rewrite Hm2, close_calls_app, Hn2; auto.
  - simpl. rewrite Hm2, Hn2. auto.
Qed.

(** C7, as the claim has it, fails: the connector opens the client, the
    probe fails, the process exits with status 1 and nothing closed the
    client. *)
Lemma opened_client_left_unclosed :
  existsb is_open (trace (snd (run unreachable_store_world sample_env ∅))) = true /\
  close_calls (trace (snd (run unreachable_store_world sample_env ∅))) = 0 /\
  exit_status (fst (run unreachable_store_world sample_env ∅)) = 1%Z.
Proof. vm_compute. auto. Qed.

(** A run that succeeds and a run that the user interrupts both close the
    client once. *)
Example close_once_on_success :
  exit_status (fst (run calm_world sample_env ∅)) = 0%Z /\
  close_calls (trace (snd (run calm_world sample_env ∅))) = 1.
Proof. vm_compute. auto. Qed.

Example close_once_on_interrupt :
  exit_status (fst (run interrupted_world sample_env ∅)) = 1%Z /\
  close_calls (trace (snd (run interrupted_world sample_env ∅))) = 1.
Proof. vm_compute. auto. Qed.

(** ** The collection the run writes *)

Ltac exec_in H :=
  cbv beta iota zeta delta
    [bind ret raise sys_exit try_except try_finally call_out log print emit
     ask fault exn_of py_in py_item py_len py_iter py_get utcnow getenv
     load_dotenv local_client assign_client negb] in H.

(** Case analysis on what a hypothesis about an outcome still branches on. *)
Ltac split_outcome H :=
  repeat match type of H with
         | context [match ?x with _ => _ end] =>
             lazymatch x with
             | context [match _ with _ => _ end] => fail
             | _ => destruct x eqn:?
             end
         end.

Lemma connect_to_mongodb_handle uri dbn w s c d h s' :
  connect_to_mongodb uri dbn w s = (Ok (c, d, h), s') ->
  h = (dbn, "mitre_attack_raw").
Proof.
  intros E. unfold connect_to_mongodb in E. exec_in E.
  split_outcome E; inversion E; reflexivity.
Qed.

Lemma load_environment_db w s uri dbn s' :
  load_environment w s = (Ok (uri, dbn), s') ->
  dbn = default "" ((environ s ∪ w_dotenv w) !! "MONGO_DB").
Proof.
  intros E. unfold load_environment in E. exec_in E.
  split_outcome E; inversion E; reflexivity.
Qed.

Lemma open_store_handle w s c d h s' :
  open_store w s = (Ok (c, d, h), s') ->
  h = (default "" ((environ s ∪ w_dotenv w) !! "MONGO_DB"), "mitre_attack_raw").
Proof.
  unfold open_store, bind. intros E.
  destruct (load_environment w s) as [[[uri dbn]|e] s1] eqn:E1; [|discriminate].
  cbn [fst snd] in E.
  rewrite (connect_to_mongodb_handle _ _ _ _ _ _ _ _ E).
  rewrite (load_environment_db _ _ _ _ _ E1). reflexivity.
Qed.

Lemma reach_fetch_handle w s h ec s' :
  reach_fetch w s = (Ok (h, ec), s') ->
  h = (default "" ((environ s ∪ w_dotenv w) !! "MONGO_DB"), "mitre_attack_raw").
Proof.
  unfold reach_fetch. unfold bind at 1. intros E.
  destruct (open_store w s) as [[[[c d] h0]|e] s1] eqn:Eopen; [|discriminate].
  apply open_store_handle in Eopen. subst h0.
  unfold bind, assign_client, ret in E. cbn [fst snd] in E.
  destruct (locate_collection w (set_main_client c s1)) as [[ec0|e] s2];
    inversion E; reflexivity.
Qed.

Lemma load_to_mongodb_frame h batch :
  respects (evolves (targets h) (only h)) (load_to_mongodb h batch).
Proof.
  eapply respects_load_to_mongodb with (owned := only h);
    unfold targets, only; try reflexivity; evolves_premise.
Qed.

Lemma main_body_frame w s r s' :
  main_body w s = (r, s') ->
  evolves (targets (target_collection w (environ s)))
          (only (target_collection w (environ s))) s s'.
Proof.
  intros E. rewrite main_body_split in E. unfold bind in E.
  destruct (reach_fetch w s) as [[[h ec]|e] s1] eqn:Ereach.
  - pose proof (reach_fetch_handle _ _ _ _ _ Ereach) as Hh.
    eapply evolves_trans.
    + eapply respects_reach_fetch; [..|exact Ereach];
        unfold targets, only; evolves_premise.
    + cbn [fst snd] in E. subst h.
      eapply respects_fetch_load_report
        with (owned := only (target_collection w (environ s)));
        [..|exact E]; unfold targets, only; try reflexivity; evolves_premise.
  - inversion E; subst.
    eapply respects_reach_fetch; [..|exact Ereach];
      unfold targets, only; evolves_premise.
Qed.

(** C10: the store connector hands out the collection "mitre_attack_raw"
    of the configured database; the load stage calls the driver on the
    collection it is given and changes the documents of no other; in a
    whole run every store call goes to that collection of the configured
    database and every other collection of every database ends with the
    documents it started with. *)
Theorem store_writes_stay_in_target :
  (forall uri dbn w s c d h s',
      connect_to_mongodb uri dbn w s = (Ok (c, d, h), s') ->
      h = (dbn, "mitre_attack_raw")) /\
  (forall h batch w s r s',
      load_to_mongodb h batch w s = (r, s') ->
      forall k, k <> h -> store s' !! k = store s !! k) /\
  (forall w env db,
      Forall (targets (target_collection w env)) (trace (snd (run w env db))) /\
      forall k, k <> target_collection w env ->
                store (snd (run w env db)) !! k = db !! k).
Proof.
  split; [exact connect_to_mongodb_handle|]. split.
  - intros h batch w s r s' E k Hk.
    destruct (load_to_mongodb_frame h batch w s r s' E) as [_ Hframe].
    apply Hframe. exact Hk.
  - intros w env db. rewrite run_unfold. unfold try_finally.
    destruct (main_handlers main_body w (started env db)) as [r s2] eqn:Eh.
    rewrite main_handlers_spec in Eh.
    destruct (main_body w (started env db)) as [rb s1] eqn:Eb.
    destruct (main_body_frame w (started env db) rb s1 Eb)
      as [[evs [Htrace Hevs]] Hstore].
    change (environ (started env db)) with env in *.
    assert (H1 : Forall (targets (target_collection w env)) (trace s1)).
    { rewrite Htrace. apply Forall_app. split; [|exact Hevs].
      repeat constructor; intros h' Hh'; discriminate. }
    assert (H2 : Forall (targets (target_collection w env)) (trace s2) /\
                 store s2 = store s1).
    { destruct rb as [a|[c| |msg]]; inversion Eh; subst; split;
        try reflexivity; try exact H1.
      all: simpl; apply Forall_app; split; [exact H1|].
      all: repeat constructor; intros h' Hh'; discriminate. }
    destruct H2 as [Ht2 Hs2]. rewrite main_cleanup_spec.
    assert (Hdb : forall k, k <> target_collection w env ->
                            store s2 !! k = db !! k).
    { intros k Hk. rewrite Hs2. apply Hstore. unfold only. exact Hk. }
    destruct (main_client s2); [destruct (w_close w)|]; simpl;
      (split; [|exact Hdb]); try exact Ht2.
    all: apply Forall_app; split; [exact Ht2|].
    all: repeat constructor; intros h' Hh'; discriminate.
Qed.

Lemma store_writes_stay_in_target_witness :
  store (snd (run calm_world sample_env populated_store)) !! ("cti", "notes") =
    populated_store !! ("cti", "notes") /\
  store (snd (run calm_world sample_env populated_store)) !! ("other", "mitre_attack_raw") =
    populated_store !! ("other", "mitre_attack_raw").
Proof.
  split.
  - apply (proj2 (proj2 (proj2 store_writes_stay_in_target)
                    calm_world sample_env populated_store)).
    vm_compute. discriminate.
  - apply (proj2 (proj2 (proj2 store_writes_stay_in_target)
                    calm_world sample_env populated_store)).
    vm_compute. discriminate.
Defined.

(** ** The load stage *)

Lemma docs_of_insert (db : gmap (string * string) (list document)) h docs :
  docs_of (<[h := docs]> db) h = docs.
Proof. unfold docs_of. rewrite lookup_insert_eq. reflexivity. Qed.

Lemma no_docs (docs : list document) : (0 <? length docs)%nat = false -> docs = [].
Proof. destruct docs; [reflexivity | discriminate]. Qed.

Ltac unfold_load :=
  unfold load_to_mongodb, count_documents, delete_many, insert_many,
    store_read, store_write, read_docs, write_docs.
Ltac unfold_load_in H :=
  unfold load_to_mongodb, count_documents, delete_many, insert_many,
    store_read, store_write, read_docs, write_docs in H.

(** C2: whatever the target collection held, a load of a non-empty batch
    that reports success leaves in it exactly the documents of the batch,
    as many as the batch has; and when no driver call fails the load does
    report success. *)
Theorem load_replaces_collection w s h batch :
  batch <> [] ->
  (forall s',
      load_to_mongodb h batch w s = (Ok true, s') ->
      docs_of (store s') h = map Normalized batch /\
      length (docs_of (store s') h) = length batch) /\
  ((forall site, w_store_fault w site = None) ->
   exists s', load_to_mongodb h batch w s = (Ok true, s')).
Proof.
  intros Hbatch. destruct batch as [|r batch]; [contradiction|]. clear Hbatch.
  split.
  - intros s' E. unfold_load_in E. exec_in E.
    split_outcome E; inversion E; subst; clear E.
    all: cbn [store set_store record_events] in *.
    all: repeat rewrite docs_of_insert.
    all: try match goal with
             | Hz : (0 <? length ?docs)%nat = false |- _ =>
                 rewrite (no_docs docs Hz)
             end.
    all: cbn [app]; split; [reflexivity | apply (length_map Normalized (r :: batch))].
  - intros Hcalm. unfold_load. exec. rewrite !Hcalm. exec.
    cbn [store set_store record_events].
    destruct (0 <? length (docs_of (store s) h))%nat;
      repeat (progress (exec; rewrite ?Hcalm; cbn [map length Nat.ltb Nat.leb]));
      eexists; reflexivity.
Qed.

Lemma load_replaces_collection_witness :
  exists s',
    load_to_mongodb ("cti", "mitre_attack_raw")
      (normalized_from calm_world 0 (List.filter allowlisted (map PDict sample_objects)))
      calm_world (initial sample_env populated_store) = (Ok true, s') /\
    length (docs_of populated_store ("cti", "mitre_attack_raw")) = 10 /\
    length (docs_of (store s') ("cti", "mitre_attack_raw")) = 4.
Proof.
  eexists. split; [vm_compute; reflexivity|]. split; [reflexivity|].
  apply (proj1 (load_replaces_collection calm_world
                  (initial sample_env populated_store)
                  ("cti", "mitre_attack_raw")
                  (normalized_from calm_world 0
                     (List.filter allowlisted (map PDict sample_objects)))
                  ltac:(vm_compute; discriminate))).
  vm_compute. reflexivity.
Defined.

(** C8, as the code has it: when the count and the deletion went through
    and the bulk insert raises, nothing of what the target collection held
    before is left or restored: the collection holds the documents of the
    new batch that the insert had written before it raised, and is empty
    when it had written none; if what the insert raised is an [Exception],
    the load makes no further driver call, logs the failure and reports
    it. *)
Theorem failed_insert_loses_prior_contents w s h batch f :
  batch <> [] ->
  w_store_fault w LoadCount = None ->
  w_store_fault w LoadDelete = None ->
  w_store_fault w LoadInsert = Some f ->
  docs_of (store (snd (load_to_mongodb h batch w s))) h =
    firstn (w_partial_insert w) (map Normalized batch) /\
  (w_partial_insert w = 0 ->
   docs_of (store (snd (load_to_mongodb h batch w s))) h = []) /\
  (forall msg,
      f = Failed msg ->
      fst (load_to_mongodb h batch w s) = Ok false /\
      exists t, trace (snd (load_to_mongodb h batch w s)) =
                t ++ [Called (StoreCall h (InsertMany (map Normalized batch))) false;
                      Log ERROR ("MongoDB insertion failed: " +:+ msg)]).
Proof.
  intros Hbatch Hcount Hdelete Hinsert.
  destruct batch as [|r batch]; [contradiction|]. clear Hbatch.
  assert (Hdocs : docs_of (store (snd (load_to_mongodb h (r :: batch) w s))) h =
                  firstn (w_partial_insert w) (map Normalized (r :: batch)) /\
                  (forall msg,
                      f = Failed msg ->
                      fst (load_to_mongodb h (r :: batch) w s) = Ok false /\
                      exists t, trace (snd (load_to_mongodb h (r :: batch) w s)) =
                                t ++ [Called (StoreCall h
                                                (InsertMany (map Normalized (r :: batch))))
                                             false;
                                      Log ERROR ("MongoDB insertion failed: " +:+ msg)])).
  { unfold_load. exec. rewrite Hcount. exec.
    cbn [store set_store record_events].
    destruct (0 <? length (docs_of (store s) h))%nat eqn:Hprior.
    - exec. rewrite Hdelete. exec. rewrite Hinsert. exec.
      destruct f as [msg|]; cbn [fst snd store set_store record_events trace];
        rewrite !docs_of_insert; (split; [reflexivity|]); intros msg' Hmsg;
        [|discriminate].
      inversion Hmsg; subst. split; [reflexivity|].
      eexists. rewrite <- app_assoc. reflexivity.
    - exec. rewrite Hinsert. exec. apply no_docs in Hprior.
      destruct f as [msg|]; cbn [fst snd store set_store record_events trace];
        rewrite docs_of_insert, Hprior; (split; [reflexivity|]);
        intros msg' Hmsg; [|discriminate].
      inversion Hmsg; subst. split; [reflexivity|].
      eexists. rewrite <- app_assoc. reflexivity. }
  destruct Hdocs as [Hdocs Hfail].
  split; [exact Hdocs|]. split; [|exact Hfail].
  intros Hnone. rewrite Hdocs, Hnone. reflexivity.
Qed.

Lemma failed_insert_loses_prior_contents_witness :
  length (docs_of populated_store ("cti", "mitre_attack_raw")) = 10 /\
  docs_of (store (snd (load_to_mongodb ("cti", "mitre_attack_raw") sample_batch
                         failing_insert_world
                         (initial sample_env populated_store))))
          ("cti", "mitre_attack_raw") = [] /\
  fst (load_to_mongodb ("cti", "mitre_attack_raw") sample_batch
         failing_insert_world (initial sample_env populated_store)) = Ok false.
Proof.
  split; [reflexivity|].
  pose proof (failed_insert_loses_prior_contents failing_insert_world
                (initial sample_env populated_store) ("cti", "mitre_attack_raw")
                sample_batch (Failed "not authorized on cti to execute command")
                ltac:(vm_compute; discriminate) eq_refl eq_refl eq_refl)
    as [_ [Hempty Hfail]].
  split; [exact (Hempty eq_refl)|].
  exact (proj1 (Hfail _ eq_refl)).
Defined.

(** C8, as the claim has it, fails: the count and the deletion of the ten
    documents went through, the bulk insert raised after it had written two
    documents of the batch, the load reports failure, and the collection is
    not empty: it holds those two documents. *)
Lemma failed_insert_leaves_part_of_the_batch :
  w_store_fault partial_insert_world LoadCount = None /\
  w_store_fault partial_insert_world LoadDelete = None /\
  w_store_fault partial_insert_world LoadInsert =
    Some (Failed "document exceeds the maximum size") /\
  fst (load_to_mongodb ("cti", "mitre_attack_raw") sample_batch
         partial_insert_world (initial sample_env populated_store)) = Ok false /\
  docs_of (store (snd (load_to_mongodb ("cti", "mitre_attack_raw") sample_batch
                         partial_insert_world
                         (initial sample_env populated_store))))
          ("cti", "mitre_attack_raw") =
    firstn 2 (map Normalized sample_batch) /\
  docs_of (store (snd (load_to_mongodb ("cti", "mitre_attack_raw") sample_batch
                         partial_insert_world
                         (initial sample_env populated_store))))
          ("cti", "mitre_attack_raw") <> [].
Proof.
  split; [reflexivity|]. split; [reflexivity|]. split; [reflexivity|].
  split; [vm_compute; reflexivity|].
  split; [vm_compute; reflexivity|].
  vm_compute. discriminate.
Qed.

(** Two runs in a row: the collection holds the records of the second run
    only. *)
Example second_run_replaces_first :
  length (docs_of (store (snd (run calm_world sample_env populated_store)))
                  ("cti", "mitre_attack_raw")) = 4 /\
  length (docs_of
            (store (snd (run calm_world sample_env
                           (store (snd (run calm_world sample_env
                                          populated_store))))))
            ("cti", "mitre_attack_raw")) = 4.
Proof. vm_compute. auto. Qed.

(** ** The config loader *)

Lemma absent_not_set env key : absent env key -> not_set (env !! key) = true.
Proof. intros [-> | ->]; reflexivity. Qed.

Lemma load_environment_missing w s :
  absent (environ s ∪ w_dotenv w) "MONGO_URI" \/
  absent (environ s ∪ w_dotenv w) "MONGO_DB" ->
  load_environment w s =
  (Raise (SystemExit 1),
   record_events
     [Log ERROR "Missing required environment variables (MONGO_URI, MONGO_DB)";
      Log INFO "Please check your .env file and ensure all required variables are set"]
     (set_environ (environ s ∪ w_dotenv w) s)).
Proof.
  intros Hmissing. unfold load_environment. exec.
  cbn [environ set_environ].
  assert (Hor : not_set ((environ s ∪ w_dotenv w) !! "MONGO_URI")
                || not_set ((environ s ∪ w_dotenv w) !! "MONGO_DB") = true).
  { destruct Hmissing as [H|H]; apply absent_not_set in H; rewrite H.
    - reflexivity.
    - apply orb_true_r. }
  rewrite Hor. rewrite record_events_app. reflexivity.
Qed.

(** C4, as the code has it: when either required variable is missing or
    empty once the [.env] file is loaded, the run logs one fixed error
    line that names both variables, makes no call to the outside (so no
    store connection attempt), leaves the store as it was and exits with
    status 1. *)
Theorem missing_config_exits_before_connecting w env db :
  absent (effective_env w env) "MONGO_URI" \/
  absent (effective_env w env) "MONGO_DB" ->
  exit_status (fst (run w env db)) = 1%Z /\
  trace (snd (run w env db)) =
    [Print "MITRE ATT&CK ETL Connector Started";
     Print bar;
     Log ERROR "Missing required environment variables (MONGO_URI, MONGO_DB)";
     Log INFO "Please check your .env file and ensure all required variables are set"] /\
  existsb is_connect_attempt (trace (snd (run w env db))) = false /\
  store (snd (run w env db)) = db.
Proof.
  intros Hmissing.
  assert (Hrun : run w env db =
                 (Raise (SystemExit 1),
                  record_events
                    [Log ERROR "Missing required environment variables (MONGO_URI, MONGO_DB)";
                     Log INFO "Please check your .env file and ensure all required variables are set"]
                    (set_environ (effective_env w env) (started env db)))).
  { rewrite run_unfold. unfold try_finally. rewrite main_handlers_spec.
    unfold main_body. unfold bind at 1.
    rewrite (load_environment_missing w (started env db) Hmissing).
    rewrite main_cleanup_spec. reflexivity. }
  rewrite Hrun. repeat split.
Qed.

Lemma missing_config_exits_before_connecting_witness :
  exit_status (fst (run calm_world env_without_db ∅)) = 1%Z /\
  existsb is_connect_attempt (trace (snd (run calm_world env_without_db ∅))) = false.
Proof.
  pose proof (missing_config_exits_before_connecting calm_world env_without_db ∅
                ltac:(right; left; vm_compute; reflexivity))
    as [Hexit [_ [Hquiet _]]].
  split; [exact Hexit | exact Hquiet].
Defined.

(** C4, as the claim has it, fails: with the connection string set and
    only the database name missing, the error line still names the
    connection string variable. *)
Lemma error_names_a_variable_that_is_set :
  absent (effective_env calm_world env_without_db) "MONGO_DB" /\
  ~ absent (effective_env calm_world env_without_db) "MONGO_URI" /\
  reported (trace (snd (run calm_world env_without_db ∅))) "MONGO_URI" = true.
Proof.
  split; [left; vm_compute; reflexivity|]. split.
  - intros [H|H]; vm_compute in H; discriminate.
  - vm_compute. reflexivity.
Qed.

(** ** The feed connector *)

Lemma feed_activity_app t1 t2 :
  feed_activity (t1 ++ t2) = feed_activity t1 ++ feed_activity t2.
Proof. unfold feed_activity. apply flat_map_app. Qed.

(** An attempt that fails and is not the last one sleeps and goes on. *)
Lemma taxii_attempt_retries w s attempt msg :
  attempt_fails w attempt = Some msg ->
  (attempt <? max_retries - 1)%nat = true ->
  w_sleep w attempt = None ->
  exists evs,
    taxii_attempt attempt w s = (Ok None, record_events evs s) /\
    feed_activity evs = [TaxiiServer taxii_url; Sleep 5].
Proof.
  intros Hfails Hearly Hsleep. unfold attempt_fails in Hfails.
  unfold taxii_attempt. exec.
  destruct (w_taxii_server w attempt) as [[|root roots]|[m|]]; exec;
    try discriminate.
  - rewrite Hearly. exec. rewrite Hsleep. exec.
    rewrite !record_events_app. eexists. split; reflexivity.
  - destruct (ar_title root) as [t|[m|]]; exec; try discriminate.
    rewrite Hearly. exec. rewrite Hsleep. exec.
    rewrite !record_events_app. eexists. split; reflexivity.
  - rewrite Hearly. exec. rewrite Hsleep. exec.
    rewrite !record_events_app. eexists. split; reflexivity.
Qed.

(** The last attempt, when it fails, exits. *)
Lemma taxii_attempt_gives_up w s attempt msg :
  attempt_fails w attempt = Some msg ->
  (attempt <? max_retries - 1)%nat = false ->
  exists evs,
    taxii_attempt attempt w s = (Raise (SystemExit 1), record_events evs s) /\
    feed_activity evs = [TaxiiServer taxii_url].
Proof.
  intros Hfails Hlast. unfold attempt_fails in Hfails.
  unfold taxii_attempt. exec.
  destruct (w_taxii_server w attempt) as [[|root roots]|[m|]]; exec;
    try discriminate.
  - rewrite Hlast. rewrite !record_events_app. eexists. split; reflexivity.
  - destruct (ar_title root) as [t|[m|]]; exec; try discriminate.
    rewrite Hlast. rewrite !record_events_app. eexists. split; reflexivity.
  - rewrite Hlast. rewrite !record_events_app. eexists. split; reflexivity.
Qed.

(** C5: when each of the three attempts fails (server unreachable, no API
    root, or unreadable root) and the two waits run to their end, the feed
    connector exits with status 1 after exactly three connection attempts
    with a 5-second sleep between consecutive ones and none after the
    last. *)
Theorem feed_connector_retries_three_times w s :
  (forall attempt, attempt < 3 -> attempt_fails w attempt <> None) ->
  w_sleep w 0 = None ->
  w_sleep w 1 = None ->
  fst (connect_to_taxii_server w s) = Raise (SystemExit 1) /\
  feed_activity (trace (snd (connect_to_taxii_server w s))) =
    feed_activity (trace s) ++
    [TaxiiServer taxii_url; Sleep 5;
     TaxiiServer taxii_url; Sleep 5;
     TaxiiServer taxii_url].
Proof.
  intros Hfail Hsleep0 Hsleep1.
  destruct (attempt_fails w 0) as [m0|] eqn:F0; [|exfalso; apply (Hfail 0); [lia|exact F0]].
  destruct (attempt_fails w 1) as [m1|] eqn:F1; [|exfalso; apply (Hfail 1); [lia|exact F1]].
  destruct (attempt_fails w 2) as [m2|] eqn:F2; [|exfalso; apply (Hfail 2); [lia|exact F2]].
  destruct (taxii_attempt_retries w s 0 m0 F0 eq_refl Hsleep0) as [evs0 [E0 A0]].
  destruct (taxii_attempt_retries w (record_events evs0 s) 1 m1 F1 eq_refl Hsleep1)
    as [evs1 [E1 A1]].
  destruct (taxii_attempt_gives_up w (record_events evs1 (record_events evs0 s))
              2 m2 F2 eq_refl) as [evs2 [E2 A2]].
  assert (Hrun : connect_to_taxii_server w s =
                 (Raise (SystemExit 1),
                  record_events evs2 (record_events evs1 (record_events evs0 s)))).
  { unfold connect_to_taxii_server. cbn [seq max_retries taxii_loop].
    rewrite (bind_ok _ _ _ _ _ _ E0). cbn beta iota.
    rewrite (bind_ok _ _ _ _ _ _ E1). cbn beta iota.
    apply (bind_raise _ _ _ _ _ _ E2). }
  rewrite Hrun. cbn [fst snd trace record_events]. split; [reflexivity|].
  rewrite !feed_activity_app, A0, A1, A2, <- !app_assoc. reflexivity.
Qed.

Lemma feed_connector_retries_three_times_witness :
  fst (connect_to_taxii_server offline_feed_world (initial sample_env ∅)) =
    Raise (SystemExit 1) /\
  feed_activity (trace (snd (connect_to_taxii_server offline_feed_world
                               (initial sample_env ∅)))) =
    [TaxiiServer taxii_url; Sleep 5;
     TaxiiServer taxii_url; Sleep 5;
     TaxiiServer taxii_url].
Proof.
  apply (feed_connector_retries_three_times offline_feed_world
           (initial sample_env ∅)).
  - intros [|[|[|n]]] Hlt; [discriminate | discriminate | discriminate | lia].
  - reflexivity.
  - reflexivity.
Defined.

(** Within a run the exit of the feed connector is the exit of the process:
    status 1, with the client closed by the cleanup step. *)
Example offline_feed_run :
  exit_status (fst (run offline_feed_world sample_env ∅)) = 1%Z /\
  feed_activity (trace (snd (run offline_feed_world sample_env ∅))) =
    [TaxiiServer taxii_url; Sleep 5;
     TaxiiServer taxii_url; Sleep 5;
     TaxiiServer taxii_url] /\
  close_calls (trace (snd (run offline_feed_world sample_env ∅))) = 1.
Proof. vm_compute. auto. Qed.

(** ** The collection locator *)

Lemma first_enterprise_none colls :
  Forall no_match colls -> first_enterprise colls = None.
Proof.
  induction 1 as [|c colls Hc _ IH]; simpl; [reflexivity|].
  unfold is_enterprise. unfold no_match in Hc. rewrite Hc. exact IH.
Qed.

Lemma first_enterprise_first before c after :
  Forall no_match before ->
  str_contains "Enterprise ATT&CK" (title c) = true ->
  first_enterprise (before ++ c :: after) = Some c.
Proof.
  intros Hbefore Hc. induction Hbefore as [|b before Hb _ IH]; simpl.
  - unfold is_enterprise. rewrite Hc. reflexivity.
  - unfold is_enterprise at 1. unfold no_match in Hb. rewrite Hb. exact IH.
Qed.

Lemma substring_all s : String.substring 0 (String.length s) s = s.
Proof. induction s as [|c s IH]; simpl; [reflexivity | rewrite IH; reflexivity]. Qed.

Lemma title_line_prefix t : String.prefix "   - " ("   - " +:+ t) = true.
Proof. destruct t; reflexivity. Qed.

Lemma title_line_title t :
  String.substring 5 (String.length ("   - " +:+ t) - 5) ("   - " +:+ t) = t.
Proof.
  change (String.substring 0 (String.length t - 0) t = t).
  rewrite Nat.sub_0_r. apply substring_all.
Qed.

Lemma listed_titles_lines (colls : list taxii_collection) :
  listed_titles (map (fun coll => Log INFO ("   - " +:+ title coll)) colls) =
  map title colls.
Proof.
  unfold listed_titles.
  induction colls as [|c colls IH]; [reflexivity|].
  cbn [map flat_map]. rewrite IH, title_line_prefix, title_line_title.
  reflexivity.
Qed.

(** C6: over a non-empty enumeration without a title that contains
    "Enterprise ATT&CK", the locator exits with status 1 after logging one
    line per sub-collection, in enumeration order, each with that
    sub-collection's title; over an enumeration with a match, it returns
    the first sub-collection whose title contains the substring. *)
Theorem locator_lists_titles_or_returns_first_match root colls w s :
  ar_collections root = Returns colls ->
  colls <> [] ->
  (Forall no_match colls ->
   get_enterprise_collection root w s =
     (Raise (SystemExit 1),
      record_events
        ([Log INFO "Looking for Enterprise ATT&CK collection...";
          Called ApiRootCollections true;
          Log ERROR "Enterprise ATT&CK collection not found";
          Log INFO "Available collections:"] ++
         map (fun coll => Log INFO ("   - " +:+ title coll)) colls) s) /\
   listed_titles (trace (snd (get_enterprise_collection root w s))) =
     listed_titles (trace s) ++ map title colls) /\
  (forall before c after,
      colls = before ++ c :: after ->
      Forall no_match before ->
      str_contains "Enterprise ATT&CK" (title c) = true ->
      fst (get_enterprise_collection root w s) = Ok c).
Proof.
  intros Hcolls Hnonempty. split.
  - intros Hnone.
    assert (Hrun : get_enterprise_collection root w s =
      (Raise (SystemExit 1),
       record_events
         ([Log INFO "Looking for Enterprise ATT&CK collection...";
           Called ApiRootCollections true;
           Log ERROR "Enterprise ATT&CK collection not found";
           Log INFO "Available collections:"] ++
          map (fun coll => Log INFO ("   - " +:+ title coll)) colls) s)).
    { unfold get_enterprise_collection. exec. rewrite Hcolls. exec.
      rewrite (first_enterprise_none colls Hnone).
      destruct colls as [|c colls]; [contradiction|].
      exec. rewrite for_each_events. exec.
      rewrite !record_events_app. reflexivity. }
    split; [exact Hrun|]. rewrite Hrun. cbn [snd trace record_events].
    unfold listed_titles at 1. rewrite flat_map_app. fold (listed_titles (trace s)).
    f_equal. rewrite flat_map_app.
    change (flat_map _ (map _ colls))
      with (listed_titles (map (fun coll => Log INFO ("   - " +:+ title coll)) colls)).
    rewrite listed_titles_lines. reflexivity.
  - intros before c after Heq Hbefore Hc. subst colls.
    unfold get_enterprise_collection. exec. rewrite Hcolls. exec.
    rewrite (first_enterprise_first before c after Hbefore Hc).
    destruct (before ++ c :: after) eqn:Hlist; [|reflexivity].
    destruct before; discriminate.
Qed.

Lemma locator_lists_titles_or_returns_first_match_witness :
  (fst (get_enterprise_collection root_without_enterprise calm_world
          (initial sample_env ∅)) = Raise (SystemExit 1) /\
   listed_titles (trace (snd (get_enterprise_collection root_without_enterprise
                                calm_world (initial sample_env ∅)))) =
     ["Mobile ATT&CK"; "ICS ATT&CK"]) /\
  fst (get_enterprise_collection root_with_two_matches calm_world
         (initial sample_env ∅)) = Ok sample_collection.
Proof.
  split.
  - destruct (proj1 (locator_lists_titles_or_returns_first_match
                       root_without_enterprise [mobile_collection; ics_collection]
                       calm_world (initial sample_env ∅) eq_refl
                       ltac:(discriminate))
                ltac:(repeat constructor)) as [Hrun Htitles].
    split; [rewrite Hrun; reflexivity | exact Htitles].
  - apply (proj2 (locator_lists_titles_or_returns_first_match
                    root_with_two_matches
                    [mobile_collection; sample_collection; later_enterprise]
                    calm_world (initial sample_env ∅) eq_refl
                    ltac:(discriminate))
             [mobile_collection] sample_collection [later_enterprise]
             eq_refl ltac:(repeat constructor) eq_refl).
Defined.

(** ** The soft failure of the fetch step *)

Lemma degraded_fetch_returns_nothing w s ec :
  degraded_fetch ec w s ->
  exists s1, fetch_and_transform_data ec w s = (Ok [], s1).
Proof.
  intros [[response [Hget Hfalsy]] | [[kv [Hget Hnone]] | [msg [s' Hraise]]]].
  - unfold fetch_and_transform_data, fetch_body. exec.
    rewrite Hget. exec. rewrite Hfalsy. exec. eexists. reflexivity.
  - unfold fetch_and_transform_data, fetch_body. exec.
    rewrite Hget. exec.
    destruct (truthy (PDict kv)); exec; [rewrite Hnone|]; eexists; reflexivity.
  - unfold fetch_and_transform_data.
    unfold bind at 1. cbn [log emit]. fold (fetching s).
    rewrite (try_except_caught _ _ _ _ _ _ Hraise).
    eexists. reflexivity.
Qed.

Lemma fetch_load_report_degraded w s ec h s1 :
  fetch_and_transform_data ec w s = (Ok [], s1) ->
  fetch_load_report h ec w s =
  (Raise (SystemExit 1),
   record_events [Log WARNING "No data to insert into MongoDB";
                  Log ERROR "ETL pipeline failed during data loading"] s1).
Proof.
  intros Hfetch. unfold fetch_load_report.
  rewrite (bind_ok _ _ _ _ _ _ Hfetch).
  unfold load_to_mongodb. exec. rewrite record_events_app. reflexivity.
Qed.

Lemma untouched_store s s' :
  evolves not_store no_collection s s' -> store s' = store s.
Proof.
  intros [_ Hsame]. apply map_eq. intros k. apply Hsame.
  unfold no_collection. tauto.
Qed.

(** C3: when the response is empty, or has no [objects] field, or an
    [Exception] is raised inside the step, the fetch/transform step
    returns the empty list; the load stage given the empty list logs one
    warning, calls nothing and reports failure; and the run that reached
    the step this way makes no store call at all, leaves the store as it
    was and exits with a non-zero status. *)
Theorem degraded_fetch_skips_load w s ec :
  degraded_fetch ec w s ->
  fst (fetch_and_transform_data ec w s) = Ok [] /\
  (forall h s1,
      load_to_mongodb h [] w s1 =
      (Ok false, record_events [Log WARNING "No data to insert into MongoDB"] s1)) /\
  (forall env db h,
      reach_fetch w (started env db) = (Ok (h, ec), s) ->
      exit_status (fst (run w env db)) <> 0%Z /\
      Forall not_store (trace (snd (run w env db))) /\
      In (Log WARNING "No data to insert into MongoDB")
         (trace (snd (run w env db))) /\
      store (snd (run w env db)) = db).
Proof.
  intros Hdegraded.
  destruct (degraded_fetch_returns_nothing w s ec Hdegraded) as [s1 Hfetch].
  split; [rewrite Hfetch; reflexivity|]. split; [reflexivity|].
  intros env db h Hreach.
  assert (Hbody : main_body w (started env db) =
                  (Raise (SystemExit 1),
                   record_events [Log WARNING "No data to insert into MongoDB";
                                  Log ERROR "ETL pipeline failed during data loading"] s1)).
  { rewrite main_body_split. rewrite (bind_ok _ _ _ _ _ _ Hreach).
    apply fetch_load_report_degraded. exact Hfetch. }
  assert (Hstage1 : evolves not_store no_collection (started env db) s).
  { eapply respects_reach_fetch; [..|exact Hreach];
      unfold not_store, no_collection; evolves_premise. }
  assert (Hstage2 : evolves not_store no_collection s s1).
  { eapply respects_fetch_and_transform_data; [..|exact Hfetch];
      unfold not_store, no_collection; evolves_premise. }
  pose proof (untouched_store _ _ (evolves_trans _ _ _ _ _ Hstage1 Hstage2)) as Hstore.
  destruct (evolves_trans _ _ _ _ _ Hstage1 Hstage2) as [[evs [Htrace Hevs]] _].
  change (trace (started env db))
    with [Print "MITRE ATT&CK ETL Connector Started"; Print bar] in Htrace.
  change (store (started env db)) with db in Hstore.
  rewrite run_unfold. unfold try_finally. rewrite main_handlers_spec, Hbody.
  rewrite main_cleanup_spec. cbn [main_client record_events].
  assert (Hquiet : Forall not_store (trace s1)).
  { rewrite Htrace. apply Forall_app. split; [|exact Hevs].
    repeat constructor. }
  assert (Hwarn : forall rest,
             In (Log WARNING "No data to insert into MongoDB")
                ((trace s1 ++ [Log WARNING "No data to insert into MongoDB";
                               Log ERROR "ETL pipeline failed during data loading"])
                 ++ rest)).
  { intros rest. apply in_or_app. left. apply in_or_app. right. left. reflexivity. }
  destruct (main_client s1); [destruct (w_close w) as [[msg|]|]|];
    cbn [fst snd trace store record_events exit_status exn_of].
  all: split; [discriminate|].
  all: split; [repeat (apply Forall_app; split); try exact Hquiet; repeat constructor|].
  all: split; [|exact Hstore].
  1-3: apply Hwarn.
  rewrite <- (app_nil_r (_ ++ _)). apply Hwarn.
Qed.

Lemma degraded_fetch_skips_load_witness :
  exit_status (fst (run hollow_feed_world sample_env populated_store)) <> 0%Z /\
  Forall not_store (trace (snd (run hollow_feed_world sample_env populated_store))) /\
  store (snd (run hollow_feed_world sample_env populated_store)) = populated_store.
Proof.
  pose proof (proj2 (proj2
    (degraded_fetch_skips_load hollow_feed_world
       (snd (reach_fetch hollow_feed_world (started sample_env populated_store)))
       hollow_collection
       ltac:(right; left; exists [("spec_version", PStr "2.1")];
             split; reflexivity)))
    sample_env populated_store ("cti", "mitre_attack_raw")
    ltac:(vm_compute; reflexivity)) as [Hexit [Hquiet [_ Hstore]]].
  split; [exact Hexit|]. split; [exact Hquiet | exact Hstore].
Defined.

(** An entry that is not an object makes the step raise, and the objects
    before it are dropped with it. *)
Example malformed_entry_yields_nothing :
  fst (fetch_and_transform_data malformed_collection calm_world
         (initial sample_env ∅)) = Ok [].
Proof. vm_compute. reflexivity. Qed.

(** ** What a function lets out

    Every exception raised in the script is an [Exception] of Python or of
    a call to the outside, the user's interrupt, or [sys.exit(1)]. *)

Section Raising.
Variable E : exn -> Prop.

Hypothesis E_exception : forall msg, E (PyException msg).
Hypothesis E_interrupt : E KeyboardInterrupt.
Hypothesis E_exit : E (SystemExit 1).

Lemma raises_ret {A} (a : A) : raises E (ret a).
Proof. intros w s e s' H. discriminate. Qed.

Lemma raises_raise {A} e : E e -> raises E (@raise A e).
Proof. intros He w s e' s' H. inversion H; subst. exact He. Qed.

Lemma raises_bind {A B} (m : M A) (k : A -> M B) :
  raises E m -> (forall a, raises E (k a)) -> raises E (bind m k).
Proof.
  intros Hm Hk w s e s' H. unfold bind in H.
  destruct (m w s) as [[a|e0] s1] eqn:Em.
  - eapply Hk; eassumption.
  - inversion H; subst. eapply Hm; eassumption.
Qed.

Lemma raises_try_except {A} (body : M A) handler :
  raises E body -> (forall msg, raises E (handler msg)) ->
  raises E (try_except body handler).
Proof.
  intros Hb Hh w s e s' H. unfold try_except in H.
  destruct (body w s) as [[a|[c| |msg]] s1] eqn:Eb;
    try (inversion H; subst; eapply Hb; eassumption).
  eapply Hh; eassumption.
Qed.

Lemma raises_emit ev : raises E (emit ev).
Proof. intros w s e s' H. discriminate. Qed.

Lemma raises_exn_of f : E (exn_of f).
Proof. destruct f; simpl; auto. Qed.

Lemma raises_call_out {A} c (ans : answer A) : raises E (call_out c ans).
Proof.
  destruct ans; simpl.
  - apply raises_bind; [apply raises_emit | intros; apply raises_ret].
  - apply raises_bind; [apply raises_emit | intros].
    apply raises_raise, raises_exn_of.
Qed.

Ltac rstep :=
  match goal with
  | |- raises _ (bind _ _) => apply raises_bind; [|intros]
  | |- raises _ (ret _) => apply raises_ret
  | |- raises _ (raise (exn_of _)) => apply raises_raise, raises_exn_of
  | |- raises _ (raise (PyException _)) => apply raises_raise, E_exception
  | |- raises _ (sys_exit 1) => apply raises_raise, E_exit
  | |- raises _ (try_except _ _) => apply raises_try_except; [|intros]
  | |- raises _ (log _ _) => apply raises_emit
  | |- raises _ (print _) => apply raises_emit
  | |- raises _ (call_out _ _) => apply raises_call_out
  | |- raises _ ask => intros ? ? ? ? ?; discriminate
  | |- raises _ (getenv _) => intros ? ? ? ? ?; discriminate
  | |- raises _ (utcnow _) => intros ? ? ? ? ?; discriminate
  | |- raises _ local_client => intros ? ? ? ? ?; discriminate
  | |- raises _ (read_docs _) => intros ? ? ? ? ?; discriminate
  | |- raises _ load_dotenv => intros ? ? ? ? ?; discriminate
  | |- raises _ (write_docs _ _) => intros ? ? ? ? ?; discriminate
  | |- raises _ (assign_client _) => intros ? ? ? ? ?; discriminate
  | |- raises _ (match ?x with _ => _ end) => destruct x
  end.

Lemma raises_for_each {A} (l : list A) (body : A -> M unit) :
  (forall x, raises E (body x)) -> raises E (for_each l body).
Proof.
  intros Hb. induction l as [|x l IH]; simpl; [rstep|].
  rstep; [apply Hb | exact IH].
Qed.

Lemma raises_py_get obj key dflt : raises E (py_get obj key dflt).
Proof. unfold py_get. repeat rstep. Qed.

Lemma raises_load_environment : raises E load_environment.
Proof. unfold load_environment. repeat rstep. Qed.

Lemma raises_connect_to_mongodb uri db : raises E (connect_to_mongodb uri db).
Proof. unfold connect_to_mongodb. repeat rstep. Qed.

Lemma raises_taxii_attempt attempt : raises E (taxii_attempt attempt).
Proof. unfold taxii_attempt. repeat rstep. Qed.

Lemma raises_taxii_loop attempts : raises E (taxii_loop attempts).
Proof.
  induction attempts as [|a rest IH]; simpl; [rstep|].
  rstep; [apply raises_taxii_attempt|]. rstep; [rstep | exact IH].
Qed.

Lemma raises_get_enterprise_collection root :
  raises E (get_enterprise_collection root).
Proof.
  unfold get_enterprise_collection.
  repeat first [apply raises_for_each; intros | rstep].
Qed.

Lemma raises_transform_loop objects transformed :
  raises E (transform_loop objects transformed).
Proof.
  revert transformed. induction objects as [|obj rest IH]; intros acc; simpl.
  - rstep.
  - rstep; [apply raises_py_get|]. rstep; [|apply IH].
    repeat first [apply raises_py_get | apply IH | rstep].
Qed.

Lemma raises_fetch_body ec : raises E (fetch_body ec).
Proof.
  unfold fetch_body, py_in, py_item, py_len, py_iter.
  repeat first [apply raises_for_each; intros
               | apply raises_transform_loop | rstep].
Qed.

Lemma raises_fetch_and_transform_data ec :
  raises E (fetch_and_transform_data ec).
Proof.
  unfold fetch_and_transform_data.
  repeat first [apply raises_fetch_body | rstep].
Qed.

Lemma raises_load_to_mongodb h batch : raises E (load_to_mongodb h batch).
Proof.
  unfold load_to_mongodb, count_documents, delete_many, insert_many,
    store_read, store_write.
  repeat rstep.
Qed.

Lemma raises_print_summary h : raises E (print_summary h).
Proof.
  unfold print_summary, count_documents, store_read.
  repeat first [apply raises_for_each; intros | rstep].
Qed.

Lemma raises_main_body : raises E main_body.
Proof.
  unfold main_body.
  repeat first [apply raises_load_environment
               | apply raises_connect_to_mongodb
               | apply raises_taxii_loop
               | apply raises_get_enterprise_collection
               | apply raises_fetch_and_transform_data
               | apply raises_load_to_mongodb
               | apply raises_print_summary
               | rstep].
Qed.
End Raising.

(** ** The stages that keep their exceptions *)

Lemma not_exit_exception msg : not_exit (PyException msg).
Proof. intros code H. discriminate. Qed.

Lemma not_exit_interrupt : not_exit KeyboardInterrupt.
Proof. intros code H. discriminate. Qed.

Lemma not_exception_interrupt : not_exception KeyboardInterrupt.
Proof. intros msg H. discriminate. Qed.

(** A [try] whose handler raises nothing lets no [Exception] out. *)
Lemma try_except_keeps_exceptions {A} (body : M A) handler :
  (forall msg, raises not_exception (handler msg)) ->
  raises not_exception (try_except body handler).
Proof.
  intros Hh w s e s' H. unfold try_except in H.
  destruct (body w s) as [[a|[c| |msg]] s1] eqn:Eb.
  - discriminate.
  - inversion H; subst. intros msg Hm. discriminate.
  - inversion H; subst. intros msg Hm. discriminate.
  - eapply Hh; eassumption.
Qed.

Lemma only_interrupt e : not_exit e -> not_exception e -> e = KeyboardInterrupt.
Proof.
  intros Hexit Hexc. destruct e as [c| |msg]; [|reflexivity|].
  - exfalso. apply (Hexit c). reflexivity.
  - exfalso. apply (Hexc msg). reflexivity.
Qed.

Lemma fetch_keeps_exceptions ec :
  raises not_exception (fetch_and_transform_data ec).
Proof.
  unfold fetch_and_transform_data. apply raises_bind.
  - apply raises_emit.
  - intros _. apply try_except_keeps_exceptions. intros msg.
    apply raises_bind; [apply raises_emit | intros; apply raises_ret].
Qed.

Lemma load_keeps_exceptions h batch :
  raises not_exception (load_to_mongodb h batch).
Proof.
  unfold load_to_mongodb. destruct batch as [|r batch].
  - apply raises_bind; [apply raises_emit | intros; apply raises_ret].
  - apply try_except_keeps_exceptions. intros msg.
    apply raises_bind; [apply raises_emit | intros; apply raises_ret].
Qed.

Lemma summary_keeps_exceptions h : raises not_exception (print_summary h).
Proof.
  unfold print_summary. apply try_except_keeps_exceptions. intros msg.
  apply raises_emit.
Qed.

(** X1: whatever the feed answers, [fetch_and_transform_data] returns a
    list or is cut by the user's interrupt: no [Exception] and no
    [SystemExit] comes out of it. *)
Theorem fetch_only_interrupt_escapes ec w s e s' :
  fetch_and_transform_data ec w s = (Raise e, s') -> e = KeyboardInterrupt.
Proof.
  intros H. apply only_interrupt.
  - eapply raises_fetch_and_transform_data;
      [exact not_exit_exception | exact not_exit_interrupt | exact H].
  - eapply fetch_keeps_exceptions. exact H.
Qed.

Lemma fetch_only_interrupt_escapes_witness :
  fst (fetch_and_transform_data interrupted_fetch_collection calm_world
         (initial sample_env ∅)) = Raise KeyboardInterrupt.
Proof.
  destruct (fetch_and_transform_data interrupted_fetch_collection calm_world
              (initial sample_env ∅)) as [[out|e] s'] eqn:H.
  - vm_compute in H. discriminate.
  - rewrite (fetch_only_interrupt_escapes _ _ _ _ _ H). reflexivity.
Defined.

(** X2: [load_to_mongodb] answers every [Exception] of the driver with
    [False]: an empty batch gives [False]; for a non-empty batch the first
    driver call that does not return decides, [False] when it raised an
    [Exception], the interrupt itself when the user interrupted it, and
    [True] when every call returned; nothing but that interrupt leaves the
    function. *)
Theorem load_answers_false_to_exceptions h batch w s :
  (forall e, fst (load_to_mongodb h batch w s) = Raise e -> e = KeyboardInterrupt) /\
  (batch = [] -> fst (load_to_mongodb h batch w s) = Ok false) /\
  (batch <> [] ->
   fst (load_to_mongodb h batch w s) =
     match first_fault w (load_sites (docs_of (store s) h)) with
     | None => Ok true
     | Some (Failed _) => Ok false
     | Some Interrupted => Raise KeyboardInterrupt
     end).
Proof.
  split; [|split].
  - destruct (load_to_mongodb h batch w s) as [r s'] eqn:H. cbn [fst].
    intros e ->. apply only_interrupt.
    + eapply raises_load_to_mongodb;
        [exact not_exit_exception | exact not_exit_interrupt | exact H].
    + eapply load_keeps_exceptions. exact H.
  - intros ->. reflexivity.
  - intros Hbatch. destruct batch as [|r batch]; [contradiction|]. clear Hbatch.
    unfold_load. exec.
    destruct (docs_of (store s) h) as [|d docs] eqn:Hdocs;
      cbn [load_sites first_fault];
      destruct (w_store_fault w LoadCount) as [[m|]|] eqn:Hcount; exec;
      try reflexivity; cbn [store set_store record_events]; rewrite Hdocs;
      cbn [length Nat.ltb Nat.leb]; exec.
    + destruct (w_store_fault w LoadInsert) as [[m|]|] eqn:Hinsert; exec;
        try reflexivity. cbn [map length Nat.ltb Nat.leb]. exec.
      destruct (w_store_fault w LoadVerify) as [[m|]|] eqn:Hverify; exec;
        reflexivity.
    + destruct (w_store_fault w LoadDelete) as [[m|]|] eqn:Hdelete; exec;
        try reflexivity.
      destruct (w_store_fault w LoadInsert) as [[m|]|] eqn:Hinsert; exec;
        try reflexivity. cbn [map length Nat.ltb Nat.leb]. exec.
      destruct (w_store_fault w LoadVerify) as [[m|]|] eqn:Hverify; exec;
        reflexivity.
Qed.

Lemma load_answers_false_to_exceptions_witness :
  sample_batch <> [] /\
  fst (load_to_mongodb ("cti", "mitre_attack_raw") sample_batch
         failing_insert_world (initial sample_env populated_store)) = Ok false /\
  fst (load_to_mongodb ("cti", "mitre_attack_raw") sample_batch
         (interrupted_store_world LoadInsert)
         (initial sample_env populated_store)) = Raise KeyboardInterrupt.
Proof.
  assert (Hbatch : sample_batch <> []) by (vm_compute; discriminate).
  split; [exact Hbatch|]. split.
  - exact (proj2 (proj2 (load_answers_false_to_exceptions
                           ("cti", "mitre_attack_raw") sample_batch
                           failing_insert_world
                           (initial sample_env populated_store))) Hbatch).
  - exact (proj2 (proj2 (load_answers_false_to_exceptions
                           ("cti", "mitre_attack_raw") sample_batch
                           (interrupted_store_world LoadInsert)
                           (initial sample_env populated_store))) Hbatch).
Defined.

(** ** The records of the transform *)

Lemma transform_loop_well_formed objs acc w s out s' :
  transform_loop objs acc w s = (Ok out, s') ->
  Forall well_formed acc -> Forall well_formed out.
Proof.
  revert acc s. induction objs as [|obj objs IH]; intros acc s H Hacc.
  - inversion H; subst. exact Hacc.
  - cbn [transform_loop] in H. unfold bind at 1 in H.
    destruct obj as [| | | | |kv]; try discriminate.
    unfold py_get at 1 in H. cbn [ret] in H.
    rewrite in_target_types_allowlisted in H.
    destruct (allowlisted (PDict kv)) eqn:Hk.
    + pose proof Hk as Hk'. unfold allowlisted in Hk'.
      destruct (type_tag (PDict kv)) as [t|] eqn:Ht; [|discriminate].
      unfold py_get, utcnow, bind, ret in H. cbn beta iota in H.
      apply IH in H; [exact H|].
      apply Forall_app. split; [exact Hacc|].
      constructor; [|constructor].
      split; cbn [raw_object ingested_at]; [exact Hk|].
      unfold normalized, attribute. rewrite Ht. reflexivity.
    + eapply IH; eassumption.
Qed.

Lemma fetch_result_of_loop ec w s out s' :
  fetch_and_transform_data ec w s = (Ok out, s') ->
  out = [] \/
  exists items s1 s2, transform_loop items [] w s1 = (Ok out, s2).
Proof.
  intros H. unfold fetch_and_transform_data, fetch_body in H. exec_in H.
  split_outcome H; inversion H; subst; clear H; auto.
  all: right; eauto.
Qed.

Lemma fetched_well_formed ec w s out s' :
  fetch_and_transform_data ec w s = (Ok out, s') -> Forall well_formed out.
Proof.
  intros H.
  destruct (fetch_result_of_loop ec w s out s' H) as [-> | [items [s1 [s2 Hloop]]]].
  - constructor.
  - eapply transform_loop_well_formed; [exact Hloop | constructor].
Qed.

Lemma well_formed_fields r :
  well_formed r ->
  In (object_type r) ["attack-pattern"; "intrusion-set"; "malware"] /\
  type_tag (raw_object r) = Some (object_type r) /\
  source r = "MITRE ATT&CK TAXII Server".
Proof.
  intros [Hallow Hnorm]. unfold allowlisted in Hallow.
  destruct (type_tag (raw_object r)) as [t|] eqn:Ht; [|discriminate].
  assert (Htype : object_type r = t).
  { rewrite Hnorm. cbn [object_type normalized]. rewrite Ht. reflexivity. }
  rewrite Htype. repeat split.
  - apply existsb_exists in Hallow. destruct Hallow as [x [Hin Heq]].
    apply String.eqb_eq in Heq. subst x. exact Hin.
  - rewrite Hnorm. reflexivity.
Qed.

(** X3: every record that [fetch_and_transform_data] returns, on any
    response, is the normalized record of a source object of the
    allowlist: its [object_type] is "attack-pattern", "intrusion-set" or
    "malware" and is the type tag of its [raw_object], its [source] is the
    fixed provenance string, and its other fields are the attributes of the
    [raw_object] or their defaults. *)
Theorem fetched_records_are_well_formed ec w s out s' :
  fetch_and_transform_data ec w s = (Ok out, s') ->
  Forall (fun r =>
            In (object_type r) ["attack-pattern"; "intrusion-set"; "malware"] /\
            type_tag (raw_object r) = Some (object_type r) /\
            source r = "MITRE ATT&CK TAXII Server" /\
            r = normalized (raw_object r) (ingested_at r)) out.
Proof.
  intros H. eapply Forall_impl; [exact (fetched_well_formed ec w s out s' H)|].
  intros r Hwf. destruct (well_formed_fields r Hwf) as [H1 [H2 H3]].
  repeat split; try assumption. exact (proj2 Hwf).
Qed.

Lemma fetched_records_are_well_formed_witness :
  Forall (fun r =>
            In (object_type r) ["attack-pattern"; "intrusion-set"; "malware"] /\
            type_tag (raw_object r) = Some (object_type r) /\
            source r = "MITRE ATT&CK TAXII Server" /\
            r = normalized (raw_object r) (ingested_at r))
         [normalized (PDict (sample_object "malware--2" "malware")) 1700000000].
Proof.
  apply (fetched_records_are_well_formed mixed_collection calm_world
           (initial sample_env ∅) _
           (snd (fetch_and_transform_data mixed_collection calm_world
                   (initial sample_env ∅)))).
  vm_compute. reflexivity.
Defined.

(** ** The summary and the exit status *)

Lemma same_store_trans s1 s2 s3 :
  same_store s1 s2 -> same_store s2 s3 -> same_store s1 s3.
Proof. unfold same_store. congruence. Qed.

Lemma print_summary_same_store h : respects same_store (print_summary h).
Proof.
  eapply respects_print_summary
    with (P := any_event) (owned := any_collection);
    first [ exact same_store_trans
          | (unfold same_store; intros; reflexivity)
          | (intros; exact I) | exact I ].
Qed.

Lemma print_summary_only_interrupt h w s e s' :
  print_summary h w s = (Raise e, s') -> e = KeyboardInterrupt.
Proof.
  intros H. apply only_interrupt.
  - eapply raises_print_summary;
      [exact not_exit_exception | exact not_exit_interrupt | exact H].
  - eapply summary_keeps_exceptions. exact H.
Qed.

Lemma print_summary_returns h w s :
  (forall site, w_store_fault w site <> Some Interrupted) ->
  fst (print_summary h w s) = Ok tt.
Proof.
  intros Hcalm. destruct (print_summary h w s) as [[[]|e] s'] eqn:H;
    [reflexivity|].
  rewrite (print_summary_only_interrupt h w s e s' H) in H. exfalso.
  unfold print_summary, count_documents, store_read, read_docs in H. exec_in H.
  destruct (w_store_fault w SummaryCount) as [[m|]|] eqn:F1;
    try (apply (Hcalm SummaryCount); exact F1); exec_in H; try discriminate.
  destruct (w_store_fault w SummaryAggregate) as [[m|]|] eqn:F2;
    try (apply (Hcalm SummaryAggregate); exact F2); exec_in H; try discriminate.
  rewrite ?for_each_events in H. exec_in H.
  destruct (w_store_fault w SummaryFindOne) as [[m|]|] eqn:F3;
    try (apply (Hcalm SummaryFindOne); exact F3); exec_in H; try discriminate.
  split_outcome H; discriminate.
Qed.

(** X4: [print_summary] only reads: it leaves every collection of the
    store as it was, whatever the driver does; no [Exception] comes out of
    it, and when no call is interrupted it returns normally, a failed
    query costing one warning line. *)
Theorem summary_is_observational h w s :
  store (snd (print_summary h w s)) = store s /\
  (forall e, fst (print_summary h w s) = Raise e -> e = KeyboardInterrupt) /\
  ((forall site, w_store_fault w site <> Some Interrupted) ->
   fst (print_summary h w s) = Ok tt).
Proof.
  split; [|split].
  - destruct (print_summary h w s) as [r s'] eqn:H.
    exact (print_summary_same_store h w s r s' H).
  - destruct (print_summary h w s) as [r s'] eqn:H. cbn [fst].
    intros e ->. exact (print_summary_only_interrupt h w s e s' H).
  - apply print_summary_returns.
Qed.

Lemma summary_is_observational_witness :
  fst (print_summary ("cti", "mitre_attack_raw") failing_summary_world
         (initial sample_env populated_store)) = Ok tt /\
  store (snd (print_summary ("cti", "mitre_attack_raw") failing_summary_world
                (initial sample_env populated_store))) = populated_store.
Proof.
  split.
  - apply (proj2 (proj2 (summary_is_observational ("cti", "mitre_attack_raw")
                           failing_summary_world
                           (initial sample_env populated_store)))).
    intros site; destruct site; discriminate.
  - apply (proj1 (summary_is_observational ("cti", "mitre_attack_raw")
                    failing_summary_world
                    (initial sample_env populated_store))).
Defined.

Lemma exit_code_one_exception msg : exit_code_one (PyException msg).
Proof. intros code H. discriminate. Qed.

Lemma exit_code_one_interrupt : exit_code_one KeyboardInterrupt.
Proof. intros code H. discriminate. Qed.

Lemma exit_code_one_exit : exit_code_one (SystemExit 1).
Proof. intros code H. inversion H. reflexivity. Qed.

Lemma main_body_exit_code w s code s' :
  main_body w s = (Raise (SystemExit code), s') -> code = 1%Z.
Proof.
  intros H.
  apply (raises_main_body exit_code_one exit_code_one_exception
           exit_code_one_interrupt exit_code_one_exit w s _ s' H).
  reflexivity.
Qed.



(** ** What a successful run leaves in the store *)

Lemma load_true_docs h batch w s s' :
  load_to_mongodb h batch w s = (Ok true, s') ->
  batch <> [] /\ docs_of (store s') h = map Normalized batch.
Proof.
  intros E. destruct batch as [|r batch].
  - unfold load_to_mongodb in E. exec_in E. discriminate.
  - split; [discriminate|].
    unfold_load_in E. exec_in E.
    split_outcome E; inversion E; subst; clear E.
    all: cbn [store set_store record_events] in *.
    all: repeat rewrite docs_of_insert.
    all: try match goal with
             | Hz : (0 <? length ?docs)%nat = false |- _ =>
                 rewrite (no_docs docs Hz)
             end.
    all: reflexivity.
Qed.

Lemma fetch_load_report_ok h ec w s s' :
  fetch_load_report h ec w s = (Ok tt, s') ->
  exists batch,
    batch <> [] /\ Forall well_formed batch /\
    docs_of (store s') h = map Normalized batch.
Proof.
  unfold fetch_load_report. intros E. unfold bind at 1 in E.
  destruct (fetch_and_transform_data ec w s) as [[batch|e] s1] eqn:Efetch;
    [|discriminate].
  unfold bind at 1 in E.
  destruct (load_to_mongodb h batch w s1) as [[[|]|e] s2] eqn:Eload;
    try discriminate.
  destruct (load_true_docs h batch w s1 s2 Eload) as [Hne Hdocs].
  exists batch. split; [exact Hne|]. split.
  - eapply fetched_well_formed. exact Efetch.
  - unfold bind at 1 in E.
    destruct (print_summary h w s2) as [[u|e] s3] eqn:Esum; [|discriminate].
    pose proof (print_summary_same_store h w s2 _ s3 Esum) as Hsame.
    exec_in E. inversion E; subst. cbn [store record_events].
    unfold same_store in Hsame. rewrite Hsame. exact Hdocs.
Qed.

(** X6: a run that exits with status 0 has found allowlisted objects and
    has left, in the collection "mitre_attack_raw" of the configured
    database, exactly their normalized records: a non-empty batch, each
    record of one of the three types. *)
Theorem exit_zero_means_loaded w env db :
  exit_status (fst (run w env db)) = 0%Z ->
  exists batch,
    batch <> [] /\
    Forall (fun r => In (object_type r)
                        ["attack-pattern"; "intrusion-set"; "malware"]) batch /\
    docs_of (store (snd (run w env db))) (target_collection w env) =
      map Normalized batch.
Proof.
  rewrite run_unfold. unfold try_finally. rewrite main_handlers_spec.
  destruct (main_body w (started env db)) as [rb s1] eqn:Eb.
  intros Hexit.
  assert (Hok : rb = Ok tt /\
                store (snd (let (r, s') := (rb, s1) in
                            match main_cleanup w s' with
                            | (Ok _, s'') => (r, s'')
                            | (Raise e, s'') => (Raise e, s'')
                            end)) = store s1).
  { destruct rb as [[]|[code| |msg]]; rewrite main_cleanup_spec in Hexit |- *;
      cbn [main_client record_events] in Hexit |- *;
      (destruct (main_client s1); [destruct (w_close w) as [[?|]|]|]);
      cbn [fst snd exit_status exn_of store record_events] in Hexit |- *;
      try discriminate; try (split; reflexivity).
    all: exfalso; apply main_body_exit_code in Eb; subst; discriminate. }
  destruct Hok as [-> Hstore].
  assert (Hfinal : store (snd (let (r, s') :=
                     (Ok tt, s1) in
                     match main_cleanup w s' with
                     | (Ok _, s'') => (r, s'')
                     | (Raise e, s'') => (Raise e, s'')
                     end)) = store s1) by exact Hstore.
  rewrite main_body_split in Eb. unfold bind in Eb.
  destruct (reach_fetch w (started env db)) as [[[h ec]|e] s2] eqn:Ereach;
    [|discriminate].
  pose proof (reach_fetch_handle _ _ _ _ _ Ereach) as Hh.
  change (environ (started env db)) with env in Hh.
  cbn [fst snd] in Eb.
  destruct (fetch_load_report_ok h ec w s2 s1 Eb) as [batch [Hne [Hwf Hdocs]]].
  exists batch. split; [exact Hne|]. split.
  - eapply Forall_impl; [exact Hwf|]. intros r Hr.
    exact (proj1 (well_formed_fields r Hr)).
  - unfold docs_of in *. rewrite Hfinal. subst h. exact Hdocs.
Qed.

Lemma exit_zero_means_loaded_witness :
  exists batch,
    batch <> [] /\
    Forall (fun r => In (object_type r)
                        ["attack-pattern"; "intrusion-set"; "malware"]) batch /\
    docs_of (store (snd (run calm_world sample_env populated_store)))
            (target_collection calm_world sample_env) =
      map Normalized batch.
Proof.
  apply (exit_zero_means_loaded calm_world sample_env populated_store).
  vm_compute. reflexivity.
Defined.

(** ** The load stage when a driver call fails *)

(** X7: when the insertion went through and the count that verifies it
    raises an [Exception], the load reports failure although the
    collection already holds exactly the new batch. *)
Theorem failed_verification_reports_failure w s h batch msg :
  batch <> [] ->
  w_store_fault w LoadCount = None ->
  w_store_fault w LoadDelete = None ->
  w_store_fault w LoadInsert = None ->
  w_store_fault w LoadVerify = Some (Failed msg) ->
  fst (load_to_mongodb h batch w s) = Ok false /\
  docs_of (store (snd (load_to_mongodb h batch w s))) h = map Normalized batch.
Proof.
  intros Hbatch Hcount Hdelete Hinsert Hverify.
  destruct batch as [|r batch]; [contradiction|]. clear Hbatch.
  unfold_load. exec. rewrite Hcount. exec.
  cbn [store set_store record_events].
  destruct (0 <? length (docs_of (store s) h))%nat eqn:Hprior.
  - exec. rewrite Hdelete. exec. rewrite Hinsert. exec.
    cbn [map length Nat.ltb Nat.leb]. exec. rewrite Hverify. exec.
    cbn [fst snd store set_store record_events].
    rewrite !docs_of_insert. split; reflexivity.
  - exec. rewrite Hinsert. exec.
    cbn [map length Nat.ltb Nat.leb]. exec. rewrite Hverify. exec.
    cbn [fst snd store set_store record_events].
    rewrite docs_of_insert, (no_docs _ Hprior). split; reflexivity.
Qed.

Lemma failed_verification_reports_failure_witness :
  fst (load_to_mongodb ("cti", "mitre_attack_raw") sample_batch
         failing_verify_world (initial sample_env populated_store)) = Ok false /\
  docs_of (store (snd (load_to_mongodb ("cti", "mitre_attack_raw") sample_batch
                         failing_verify_world
                         (initial sample_env populated_store))))
          ("cti", "mitre_attack_raw") = map Normalized sample_batch.
Proof.
  apply (failed_verification_reports_failure failing_verify_world
           (initial sample_env populated_store) ("cti", "mitre_attack_raw")
           sample_batch "connection reset by peer");
    [vm_compute; discriminate | reflexivity..].
Defined.

Lemma insert_calls_app t1 t2 :
  insert_calls (t1 ++ t2) = insert_calls t1 + insert_calls t2.
Proof. unfold insert_calls. rewrite List.filter_app, length_app. reflexivity. Qed.

(** X8: when the first count raises, or the deletion of a non-empty
    collection raises, the load stops there: [insert_many] is not called,
    an [Exception] is logged as an insertion failure and answered with
    [False], and a [KeyboardInterrupt] leaves the function. *)
Theorem failure_before_insert_attempts_no_insert w s h batch f :
  batch <> [] ->
  w_store_fault w LoadCount = Some f \/
  (w_store_fault w LoadCount = None /\ docs_of (store s) h <> [] /\
   w_store_fault w LoadDelete = Some f) ->
  insert_calls (trace (snd (load_to_mongodb h batch w s))) =
    insert_calls (trace s) /\
  (forall msg,
      f = Failed msg ->
      fst (load_to_mongodb h batch w s) = Ok false /\
      exists t, trace (snd (load_to_mongodb h batch w s)) =
                t ++ [Log ERROR ("MongoDB insertion failed: " +:+ msg)]) /\
  (f = Interrupted ->
   fst (load_to_mongodb h batch w s) = Raise KeyboardInterrupt).
Proof.
  intros Hbatch Hcase.
  destruct batch as [|r batch]; [contradiction|]. clear Hbatch.
  unfold_load. exec.
  destruct Hcase as [Hcount | [Hcount [Hprior Hdelete]]]; rewrite Hcount; exec.
  - destruct f as [msg|]; cbn [fst snd store trace record_events];
      rewrite !insert_calls_app; cbn [insert_calls List.filter length];
      rewrite ?Nat.add_0_r; (split; [reflexivity|]); split;
      try (intros m Hm; inversion Hm; subst; split; [reflexivity|];
           eexists; reflexivity);
      try discriminate; reflexivity.
  - cbn [store set_store record_events].
    destruct (docs_of (store s) h) as [|d docs] eqn:Hdocs; [contradiction|].
    cbn [length Nat.ltb Nat.leb]. exec. rewrite Hdelete. exec.
    destruct f as [msg|]; cbn [fst snd store set_store trace record_events];
      rewrite !insert_calls_app; cbn [insert_calls List.filter length];
      rewrite ?Nat.add_0_r; (split; [reflexivity|]); split;
      try (intros m Hm; inversion Hm; subst; split; [reflexivity|];
           eexists; reflexivity);
      try discriminate; reflexivity.
Qed.

Lemma failure_before_insert_attempts_no_insert_witness :
  insert_calls (trace (snd (load_to_mongodb ("cti", "mitre_attack_raw") sample_batch
                              failing_delete_world
                              (initial sample_env populated_store)))) = 0 /\
  fst (load_to_mongodb ("cti", "mitre_attack_raw") sample_batch
         failing_delete_world (initial sample_env populated_store)) = Ok false.
Proof.
  pose proof (failure_before_insert_attempts_no_insert failing_delete_world
                (initial sample_env populated_store) ("cti", "mitre_attack_raw")
                sample_batch
                (Failed "not authorized on cti to execute command")
                ltac:(vm_compute; discriminate)
                ltac:(right; split; [reflexivity|];
                      split; [vm_compute; discriminate | reflexivity]))
    as [Hcalls [Hfalse _]].
  split; [exact Hcalls | exact (proj1 (Hfalse _ eq_refl))].
Defined.

(** ** The feed connector when the server answers *)

Lemma taxii_attempt_succeeds w s attempt root others t :
  w_taxii_server w attempt = Returns (root :: others) ->
  ar_title root = Returns t ->
  exists evs,
    taxii_attempt attempt w s = (Ok (Some (taxii_url, root)), record_events evs s) /\
    feed_activity evs = [TaxiiServer taxii_url].
Proof.
  intros Hserver Htitle. unfold taxii_attempt. exec.
  rewrite Hserver. exec. rewrite Htitle. exec.
  rewrite !record_events_app. eexists. split; reflexivity.
Qed.

Lemma taxii_attempt_ok w s attempt r s' :
  taxii_attempt attempt w s = (Ok r, s') ->
  (r = None /\ (attempt <? max_retries - 1)%nat = true) \/
  (exists root others,
      r = Some (taxii_url, root) /\
      w_taxii_server w attempt = Returns (root :: others)).
Proof.
  intros H. unfold taxii_attempt in H. exec_in H.
  split_outcome H; inversion H; subst; clear H; eauto.
Qed.

(** X9: when the server answers at attempt [k] (the first, second or
    third) after [k] failed attempts whose waits ran to their end, the feed
    connector returns the first API root of that answer, after [k] sleeps
    of 5 seconds, one between each two consecutive attempts. *)
Theorem feed_connector_returns_first_root w s k root others t :
  k < 3 ->
  (forall i, i < k -> attempt_fails w i <> None /\ w_sleep w i = None) ->
  w_taxii_server w k = Returns (root :: others) ->
  ar_title root = Returns t ->
  fst (connect_to_taxii_server w s) = Ok (Some (taxii_url, root)) /\
  feed_activity (trace (snd (connect_to_taxii_server w s))) =
    feed_activity (trace s) ++
    concat (repeat [TaxiiServer taxii_url; Sleep 5] k) ++
    [TaxiiServer taxii_url].
Proof.
  intros Hk Hfail Hserver Htitle.
  unfold connect_to_taxii_server. cbn [seq max_retries taxii_loop].
  destruct k as [|[|[|k]]]; [| | |lia].
  - destruct (taxii_attempt_succeeds w s 0 root others t Hserver Htitle)
      as [evs [E A]].
    rewrite (bind_ok _ _ _ _ _ _ E). cbn [ret fst snd trace record_events].
    rewrite feed_activity_app, A. split; reflexivity.
  - destruct (Hfail 0 ltac:(lia)) as [F0 S0].
    destruct (attempt_fails w 0) as [m0|] eqn:E0; [|contradiction].
    destruct (taxii_attempt_retries w s 0 m0 E0 eq_refl S0) as [evs0 [R0 A0]].
    destruct (taxii_attempt_succeeds w (record_events evs0 s) 1 root others t
                Hserver Htitle) as [evs [E A]].
    rewrite (bind_ok _ _ _ _ _ _ R0). cbn beta iota.
    rewrite (bind_ok _ _ _ _ _ _ E). cbn [ret fst snd trace record_events].
    rewrite !feed_activity_app, A0, A, <- !app_assoc. split; reflexivity.
  - destruct (Hfail 0 ltac:(lia)) as [F0 S0].
    destruct (Hfail 1 ltac:(lia)) as [F1 S1].
    destruct (attempt_fails w 0) as [m0|] eqn:E0; [|contradiction].
    destruct (attempt_fails w 1) as [m1|] eqn:E1; [|contradiction].
    destruct (taxii_attempt_retries w s 0 m0 E0 eq_refl S0) as [evs0 [R0 A0]].
    destruct (taxii_attempt_retries w (record_events evs0 s) 1 m1 E1 eq_refl S1)
      as [evs1 [R1 A1]].
    destruct (taxii_attempt_succeeds w (record_events evs1 (record_events evs0 s))
                2 root others t Hserver Htitle) as [evs [E A]].
    rewrite (bind_ok _ _ _ _ _ _ R0). cbn beta iota.
    rewrite (bind_ok _ _ _ _ _ _ R1). cbn beta iota.
    rewrite (bind_ok _ _ _ _ _ _ E). cbn [ret fst snd trace record_events].
    rewrite !feed_activity_app, A0, A1, A, <- !app_assoc. split; reflexivity.
Qed.

Lemma feed_connector_returns_first_root_witness :
  fst (connect_to_taxii_server slow_feed_world (initial sample_env ∅)) =
    Ok (Some (taxii_url, sample_root)) /\
  feed_activity (trace (snd (connect_to_taxii_server slow_feed_world
                               (initial sample_env ∅)))) =
    [TaxiiServer taxii_url; Sleep 5; TaxiiServer taxii_url; Sleep 5;
     TaxiiServer taxii_url].
Proof.
  apply (feed_connector_returns_first_root slow_feed_world
           (initial sample_env ∅) 2 sample_root [root_without_enterprise]
           "MITRE ATT&CK").
  - lia.
  - intros [|[|i]] Hi; [split; [discriminate | reflexivity]..|lia].
  - reflexivity.
  - reflexivity.
Defined.

(** X10: whatever the server does, what the feed connector returns is the
    first API root of the answer to one of its three attempts, with the
    fixed URL: it never falls off its loop and returns nothing, so the
    unpacking in [main] cannot fail. *)
Theorem feed_connector_returns_a_root w s r :
  fst (connect_to_taxii_server w s) = Ok r ->
  exists k root others,
    k < 3 /\ r = Some (taxii_url, root) /\
    w_taxii_server w k = Returns (root :: others).
Proof.
  unfold connect_to_taxii_server. cbn [seq max_retries taxii_loop].
  intros H. unfold bind at 1 in H.
  destruct (taxii_attempt 0 w s) as [[r0|e0] s0] eqn:E0; [|discriminate].
  apply taxii_attempt_ok in E0.
  destruct E0 as [[-> _] | [root [others [-> Hserver]]]].
  2: { inversion H; subst. exists 0, root, others. auto. }
  unfold bind at 1 in H.
  destruct (taxii_attempt 1 w s0) as [[r1|e1] s1] eqn:E1; [|discriminate].
  apply taxii_attempt_ok in E1.
  destruct E1 as [[-> _] | [root [others [-> Hserver]]]].
  2: { inversion H; subst. exists 1, root, others. auto. }
  unfold bind at 1 in H.
  destruct (taxii_attempt 2 w s1) as [[r2|e2] s2] eqn:E2; [|discriminate].
  apply taxii_attempt_ok in E2.
  destruct E2 as [[_ Hlast] | [root [others [-> Hserver]]]]; [discriminate|].
  inversion H; subst. exists 2, root, others. auto.
Qed.

Lemma feed_connector_returns_a_root_witness :
  exists k root others,
    k < 3 /\ Some (taxii_url, sample_root) = Some (taxii_url, root) /\
    w_taxii_server slow_feed_world k = Returns (root :: others).
Proof.
  apply (feed_connector_returns_a_root slow_feed_world (initial sample_env ∅)).
  vm_compute. reflexivity.
Defined.

(** ** The collection locator: what it returns and when it gives up *)

Lemma first_enterprise_some colls c :
  first_enterprise colls = Some c ->
  exists before after,
    colls = before ++ c :: after /\ Forall no_match before /\
    str_contains "Enterprise ATT&CK" (title c) = true.
Proof.
  induction colls as [|x colls IH]; simpl; [discriminate|].
  unfold is_enterprise at 1.
  destruct (str_contains "Enterprise ATT&CK" (title x)) eqn:Hx.
  - intros H. inversion H; subst. exists [], colls. auto.
  - intros H. destruct (IH H) as [before [after [-> [Hb Hc]]]].
    exists (x :: before), after. split; [reflexivity|]. split; [|exact Hc].
    constructor; [exact Hx | exact Hb].
Qed.

(** X11: the collection that the locator returns is always the first
    sub-collection of the enumeration whose title contains
    "Enterprise ATT&CK": it returns no other. *)
Theorem locator_returns_only_first_match root w s c :
  fst (get_enterprise_collection root w s) = Ok c ->
  exists before after,
    ar_collections root = Returns (before ++ c :: after) /\
    Forall no_match before /\
    str_contains "Enterprise ATT&CK" (title c) = true.
Proof.
  unfold get_enterprise_collection. intros H. exec_in H.
  destruct (ar_collections root) as [colls|f] eqn:Hcolls; exec_in H.
  - destruct colls as [|x colls]; exec_in H; [discriminate|].
    destruct (first_enterprise (x :: colls)) as [found|] eqn:Hfirst; exec_in H.
    + cbn [fst] in H. inversion H; subst.
      destruct (first_enterprise_some _ _ Hfirst) as [before [after [Heq Hrest]]].
      exists before, after. rewrite <- Heq. auto.
    + rewrite for_each_events in H. discriminate.
  - destruct f; discriminate.
Qed.

Lemma locator_returns_only_first_match_witness :
  exists before after,
    ar_collections root_with_two_matches =
      Returns (before ++ sample_collection :: after) /\
    Forall no_match before /\
    str_contains "Enterprise ATT&CK" (title sample_collection) = true.
Proof.
  apply (locator_returns_only_first_match root_with_two_matches calm_world
           (initial sample_env ∅)).
  vm_compute. reflexivity.
Defined.

(** X12: when the enumeration is empty, or reading it raises an
    [Exception], the locator logs one error line with the cause, lists no
    title and exits with status 1. *)
Theorem locator_exits_without_enumeration root w s msg :
  (ar_collections root = Returns [] /\ msg = "No collections found in API root") \/
  ar_collections root = Raises (Failed msg) ->
  fst (get_enterprise_collection root w s) = Raise (SystemExit 1) /\
  (exists t, trace (snd (get_enterprise_collection root w s)) =
             t ++ [Log ERROR ("Error accessing collections: " +:+ msg)]) /\
  listed_titles (trace (snd (get_enterprise_collection root w s))) =
    listed_titles (trace s).
Proof.
  intros [[Hcolls ->] | Hcolls]; unfold get_enterprise_collection; exec;
    rewrite Hcolls; exec; cbn [fst snd trace record_events].
  all: split; [reflexivity|]; split; [eexists; reflexivity|].
  all: unfold listed_titles; rewrite !flat_map_app; cbn [flat_map];
    rewrite ?app_nil_r.
  all: reflexivity.
Qed.

Lemma locator_exits_without_enumeration_witness :
  fst (get_enterprise_collection empty_root calm_world (initial sample_env ∅)) =
    Raise (SystemExit 1) /\
  fst (get_enterprise_collection unreadable_root calm_world
         (initial sample_env ∅)) = Raise (SystemExit 1).
Proof.
  split.
  - apply (locator_exits_without_enumeration empty_root calm_world
             (initial sample_env ∅) "No collections found in API root").
    left. split; reflexivity.
  - apply (locator_exits_without_enumeration unreadable_root calm_world
             (initial sample_env ∅) "406 Not Acceptable").
    right. reflexivity.
Defined.

(** ** The config loader and the store connector *)

Lemma load_environment_outcome w s :
  load_environment w s =
  if not_set ((environ s ∪ w_dotenv w) !! "MONGO_URI")
     || not_set ((environ s ∪ w_dotenv w) !! "MONGO_DB")
  then (Raise (SystemExit 1),
        record_events
          [Log ERROR "Missing required environment variables (MONGO_URI, MONGO_DB)";
           Log INFO "Please check your .env file and ensure all required variables are set"]
          (set_environ (environ s ∪ w_dotenv w) s))
  else (Ok (default "" ((environ s ∪ w_dotenv w) !! "MONGO_URI"),
            default "" ((environ s ∪ w_dotenv w) !! "MONGO_DB")),
        set_environ (environ s ∪ w_dotenv w) s).
Proof.
  unfold load_environment. exec. cbn [environ set_environ].
  destruct (_ || _); [|reflexivity].
  rewrite record_events_app. reflexivity.
Qed.

Lemma not_set_false v : not_set v = false <-> exists x, v = Some x /\ x <> "".
Proof.
  destruct v as [x|]; simpl.
  - destruct (String.eqb_spec x "") as [->|Hx]; split.
    + discriminate.
    + intros [y [Hy Hne]]. inversion Hy; subst. contradiction.
    + intros _. exists x. auto.
    + reflexivity.
  - split; [discriminate | intros [x [Hx _]]; discriminate].
Qed.

(** X13: [load_environment] returns a connection string and a database
    name exactly when both variables are set and non-empty once the [.env]
    file is loaded, and then it returns their values and logs nothing. *)
Theorem load_environment_returns_settings w s uri db :
  (fst (load_environment w s) = Ok (uri, db) <->
   ((environ s ∪ w_dotenv w) !! "MONGO_URI" = Some uri /\ uri <> "" /\
    (environ s ∪ w_dotenv w) !! "MONGO_DB" = Some db /\ db <> "")) /\
  (fst (load_environment w s) = Ok (uri, db) ->
   trace (snd (load_environment w s)) = trace s).
Proof.
  rewrite load_environment_outcome.
  destruct (not_set ((environ s ∪ w_dotenv w) !! "MONGO_URI")) eqn:Huri;
    [|destruct (not_set ((environ s ∪ w_dotenv w) !! "MONGO_DB")) eqn:Hdb];
    cbn [orb fst snd].
  - split; [split|]; try discriminate.
    intros [Hu [Hne _]]. rewrite Hu in Huri. simpl in Huri.
    apply String.eqb_eq in Huri. contradiction.
  - split; [split|]; try discriminate.
    intros [_ [_ [Hd Hne]]]. rewrite Hd in Hdb. simpl in Hdb.
    apply String.eqb_eq in Hdb. contradiction.
  - apply not_set_false in Huri. destruct Huri as [u [Hu Hune]].
    apply not_set_false in Hdb. destruct Hdb as [d [Hd Hdne]].
    rewrite Hu, Hd. cbn [default]. split; [split|reflexivity].
    + intros H. inversion H; subst. auto.
    + intros [H1 [_ [H2 _]]]. inversion H1; inversion H2; subst. reflexivity.
Qed.

Lemma load_environment_returns_settings_witness :
  fst (load_environment denied_store_world (initial env_without_db ∅)) =
    Ok ("mongodb://localhost:27017", "cti").
Proof.
  apply (proj2 (proj1 (load_environment_returns_settings denied_store_world
                         (initial env_without_db ∅)
                         "mongodb://localhost:27017" "cti"))).
  split; [vm_compute; reflexivity|]. split; [discriminate|].
  split; [vm_compute; reflexivity | discriminate].
Defined.

(** X14: with both variables set, when [MongoClient(...)], the probe
    [server_info()] or [client[mongo_db]] raises an [Exception], the run
    logs the cause and exits with status 1 before any attempt to connect to
    the feed; the store is untouched and the cleanup step closes nothing. *)
Theorem store_failure_exits_before_feed w env db msg :
  ~ absent (effective_env w env) "MONGO_URI" ->
  ~ absent (effective_env w env) "MONGO_DB" ->
  w_mongo_client w = Some (Failed msg) \/
  (w_mongo_client w = None /\ w_server_info w = Some (Failed msg)) \/
  (w_mongo_client w = None /\ w_server_info w = None /\
   w_database w (configured_db w env) = Some (Failed msg)) ->
  exit_status (fst (run w env db)) = 1%Z /\
  feed_activity (trace (snd (run w env db))) = [] /\
  close_calls (trace (snd (run w env db))) = 0 /\
  In (Log ERROR ("MongoDB connection failed: " +:+ msg))
     (trace (snd (run w env db))) /\
  store (snd (run w env db)) = db.
Proof.
  intros Huri Hdb Hfail.
  assert (Hset : not_set (effective_env w env !! "MONGO_URI")
                 || not_set (effective_env w env !! "MONGO_DB") = false).
  { unfold absent in Huri, Hdb.
    destruct (effective_env w env !! "MONGO_URI") as [u|]; [|tauto].
    destruct (effective_env w env !! "MONGO_DB") as [d|]; [|tauto].
    simpl. destruct (String.eqb_spec u "") as [->|_]; [tauto|].
    destruct (String.eqb_spec d "") as [->|_]; [tauto|]. reflexivity. }
  destruct (run w env db) as [r final] eqn:Hrun.
  rewrite run_unfold in Hrun. unfold try_finally in Hrun.
  rewrite main_handlers_spec in Hrun.
  unfold main_body in Hrun. unfold bind at 1 in Hrun.
  rewrite load_environment_outcome in Hrun.
  change (environ (started env db) ∪ w_dotenv w)
    with (effective_env w env) in Hrun.
  rewrite Hset in Hrun. cbv beta iota in Hrun.
  change (default "" (effective_env w env !! "MONGO_DB"))
    with (configured_db w env) in Hrun.
  unfold bind at 1 in Hrun. unfold connect_to_mongodb in Hrun. exec_in Hrun.
  destruct Hfail as [Hc | [[Hc Hp] | [Hc [Hp Hd]]]]; rewrite Hc in Hrun;
    exec_in Hrun;
    [| rewrite Hp in Hrun; exec_in Hrun
     | rewrite Hp in Hrun; exec_in Hrun; rewrite Hd in Hrun; exec_in Hrun];
    rewrite main_cleanup_spec in Hrun;
    cbn [main_client record_events set_environ started initial] in Hrun;
    inversion Hrun; subst; clear Hrun;
    cbn [fst snd exit_status trace store];
    repeat split; cbn; auto 20.
Qed.

Lemma store_failure_exits_before_feed_witness :
  exit_status (fst (run denied_store_world env_without_db populated_store)) = 1%Z /\
  feed_activity (trace (snd (run denied_store_world env_without_db
                               populated_store))) = [] /\
  store (snd (run denied_store_world env_without_db populated_store)) =
    populated_store.
Proof.
  pose proof (store_failure_exits_before_feed denied_store_world env_without_db
                populated_store "Authentication failed."
                ltac:(intros [H|H]; vm_compute in H; discriminate)
                ltac:(intros [H|H]; vm_compute in H; discriminate)
                ltac:(right; left; split; reflexivity))
    as [Hexit [Hfeed [_ [_ Hstore]]]].
  split; [exact Hexit|]. split; [exact Hfeed | exact Hstore].
Defined.

(** ** A feed without allowlisted objects *)

Lemma filter_none {A} (f : A -> bool) (l : list A) :
  Forall (fun x => f x = false) l -> List.filter f l = [].
Proof.
  induction 1 as [|x l Hx _ IH]; simpl; [reflexivity|]. rewrite Hx. exact IH.
Qed.

Lemma run_with_empty_batch w env db h ec s s1 :
  reach_fetch w (started env db) = (Ok (h, ec), s) ->
  fetch_and_transform_data ec w s = (Ok [], s1) ->
  exit_status (fst (run w env db)) <> 0%Z /\
  Forall not_store (trace (snd (run w env db))) /\
  store (snd (run w env db)) = db.
Proof.
  intros Hreach Hfetch.
  assert (Hbody : main_body w (started env db) =
                  (Raise (SystemExit 1),
                   record_events [Log WARNING "No data to insert into MongoDB";
                                  Log ERROR "ETL pipeline failed during data loading"] s1)).
  { rewrite main_body_split. rewrite (bind_ok _ _ _ _ _ _ Hreach).
    apply fetch_load_report_degraded. exact Hfetch. }
  assert (Hstage1 : evolves not_store no_collection (started env db) s).
  { eapply respects_reach_fetch; [..|exact Hreach];
      unfold not_store, no_collection; evolves_premise. }
  assert (Hstage2 : evolves not_store no_collection s s1).
  { eapply respects_fetch_and_transform_data; [..|exact Hfetch];
      unfold not_store, no_collection; evolves_premise. }
  pose proof (untouched_store _ _ (evolves_trans _ _ _ _ _ Hstage1 Hstage2)) as Hstore.
  destruct (evolves_trans _ _ _ _ _ Hstage1 Hstage2) as [[evs [Htrace Hevs]] _].
  change (trace (started env db))
    with [Print "MITRE ATT&CK ETL Connector Started"; Print bar] in Htrace.
  change (store (started env db)) with db in Hstore.
  rewrite run_unfold. unfold try_finally. rewrite main_handlers_spec, Hbody.
  rewrite main_cleanup_spec. cbn [main_client record_events].
  assert (Hquiet : Forall not_store (trace s1)).
  { rewrite Htrace. apply Forall_app. split; [|exact Hevs].
    repeat constructor. }
  destruct (main_client s1); [destruct (w_close w) as [[msg|]|]|];
    cbn [fst snd trace store record_events exit_status exn_of].
  all: split; [discriminate|].
  all: split; [|exact Hstore].
  all: repeat (apply Forall_app; split); try exact Hquiet; repeat constructor.
Qed.

(** X15: when the feed answers with source objects of which none is of
    the allowlist, the run that reached the fetch makes no store call,
    leaves every collection of the store as it was and exits with a
    non-zero status: a feed with nothing to load never clears the target
    collection. *)
Theorem nothing_allowlisted_leaves_store w env db h ec s kv ds :
  reach_fetch w (started env db) = (Ok (h, ec), s) ->
  get_objects ec = Returns (PDict kv) ->
  dict_lookup kv "objects" = Some (PList (map PDict ds)) ->
  Forall (fun obj => allowlisted obj = false) (map PDict ds) ->
  fst (fetch_and_transform_data ec w s) = Ok [] /\
  exit_status (fst (run w env db)) <> 0%Z /\
  Forall not_store (trace (snd (run w env db))) /\
  store (snd (run w env db)) = db.
Proof.
  intros Hreach Hget Hobjs Hnone.
  destruct (fetch_well_formed w s ec kv ds Hget Hobjs) as [s1 Hfetch].
  rewrite (filter_none _ _ Hnone) in Hfetch. cbn [normalized_from] in Hfetch.
  split; [rewrite Hfetch; reflexivity|].
  exact (run_with_empty_batch w env db h ec s s1 Hreach Hfetch).
Qed.

Lemma nothing_allowlisted_leaves_store_witness :
  exit_status (fst (run foreign_feed_world sample_env populated_store)) <> 0%Z /\
  store (snd (run foreign_feed_world sample_env populated_store)) =
    populated_store.
Proof.
  pose proof (nothing_allowlisted_leaves_store foreign_feed_world sample_env
                populated_store ("cti", "mitre_attack_raw") foreign_collection
                (snd (reach_fetch foreign_feed_world
                        (started sample_env populated_store)))
                foreign_response foreign_objects
                ltac:(vm_compute; reflexivity) eq_refl eq_refl
                ltac:(repeat constructor))
    as [_ [Hexit [_ Hstore]]].
  split; [exact Hexit | exact Hstore].
Defined.

(** ** The type breakdown *)

Lemma counted_count_type type_counts t t' :
  counted (count_type type_counts t) t' =
  counted type_counts t' + (if String.eqb t t' then 1 else 0).
Proof.
  induction type_counts as [|[k c] rest IH]; simpl.
  - destruct (String.eqb t t'); reflexivity.
  - destruct (String.eqb_spec k t) as [->|Hkt]; simpl.
    + destruct (String.eqb_spec t t') as [->|Htt']; [reflexivity | lia].
    + destruct (String.eqb_spec k t') as [->|Hkt'].
      * destruct (String.eqb_spec t t') as [->|_]; [contradiction | lia].
      * exact IH.
Qed.

Lemma keys_count_type type_counts t :
  map fst (count_type type_counts t) =
  if existsb (String.eqb t) (map fst type_counts)
  then map fst type_counts
  else map fst type_counts ++ [t].
Proof.
  induction type_counts as [|[k c] rest IH]; simpl; [reflexivity|].
  rewrite (String.eqb_sym t k).
  destruct (String.eqb k t); simpl; [reflexivity|].
  rewrite IH. destruct (existsb _ _); reflexivity.
Qed.

Lemma total_count_type type_counts t :
  total (count_type type_counts t) = S (total type_counts).
Proof.
  induction type_counts as [|[k c] rest IH]; simpl; [reflexivity|].
  destruct (String.eqb k t); simpl; [lia | rewrite IH; lia].
Qed.

Lemma nodup_count_type type_counts t :
  NoDup (map fst type_counts) -> NoDup (map fst (count_type type_counts t)).
Proof.
  intros Hnd. rewrite keys_count_type.
  destruct (existsb (String.eqb t) (map fst type_counts)) eqn:Hex; [exact Hnd|].
  apply NoDup_app. split; [exact Hnd|]. split.
  - intros x Hx Hin. apply list_elem_of_In in Hx, Hin.
    destruct Hin as [<-|[]].
    assert (existsb (String.eqb t) (map fst type_counts) = true).
    { apply existsb_exists. exists t. split; [exact Hx | apply String.eqb_refl]. }
    congruence.
  - apply NoDup_singleton.
Qed.

Lemma breakdown_invariant (l : list normalized_record) type_counts :
  NoDup (map fst type_counts) ->
  NoDup (map fst (fold_left (fun tc obj => count_type tc (object_type obj)) l
                            type_counts)) /\
  (forall t, counted (fold_left (fun tc obj => count_type tc (object_type obj)) l
                                type_counts) t =
             counted type_counts t + count_of t l) /\
  total (fold_left (fun tc obj => count_type tc (object_type obj)) l type_counts) =
    total type_counts + length l.
Proof.
  revert type_counts. induction l as [|r l IH]; intros tc Hnd; simpl.
  - split; [exact Hnd|]. split; [intros t; unfold count_of; simpl; lia | lia].
  - destruct (IH (count_type tc (object_type r)) (nodup_count_type _ _ Hnd))
      as [H1 [H2 H3]].
    split; [exact H1|]. split.
    + intros t. rewrite H2, counted_count_type. unfold count_of. simpl.
      destruct (String.eqb (object_type r) t); simpl; lia.
    + rewrite H3, total_count_type. lia.
Qed.

Lemma counted_in type_counts t c :
  NoDup (map fst type_counts) -> In (t, c) type_counts ->
  counted type_counts t = c.
Proof.
  induction type_counts as [|[k c'] rest IH]; simpl; [tauto|].
  intros Hnd [Heq|Hin].
  - inversion Heq; subst. rewrite String.eqb_refl. reflexivity.
  - apply NoDup_cons in Hnd. destruct Hnd as [Hk Hrest].
    destruct (String.eqb_spec k t) as [->|_]; [|apply IH; assumption].
    exfalso. apply Hk. apply list_elem_of_In.
    change t with (fst (t, c)). apply in_map. exact Hin.
Qed.

Lemma breakdown_keys (l : list normalized_record) type_counts :
  map fst (fold_left (fun tc obj => count_type tc (object_type obj)) l
                     type_counts) =
  fold_left (fun seen t => if existsb (String.eqb t) seen then seen
                           else seen ++ [t])
            (map object_type l) (map fst type_counts).
Proof.
  revert type_counts. induction l as [|r l IH]; intros tc; simpl; [reflexivity|].
  rewrite IH, keys_count_type. reflexivity.
Qed.

(** X16: the breakdown that the fetch step logs has one line per type
    that occurs among the records, in the order of first occurrence; the
    count on the line of a type is the number of records of that type, and
    the counts add up to the number of records. *)
Theorem breakdown_counts_records (l : list normalized_record) :
  map fst (type_breakdown l) = first_occurrences (map object_type l) /\
  NoDup (map fst (type_breakdown l)) /\
  (forall t c, In (t, c) (type_breakdown l) -> c = count_of t l) /\
  (forall t, counted (type_breakdown l) t = count_of t l) /\
  total (type_breakdown l) = length l.
Proof.
  destruct (breakdown_invariant l [] (NoDup_nil_2 (A := string)))
    as [Hnd [Hcount Htotal]].
  unfold type_breakdown. split; [apply (breakdown_keys l [])|].
  split; [exact Hnd|]. split; [|split].
  - intros t c Hin. specialize (Hcount t). cbn [counted plus] in Hcount.
    rewrite <- Hcount. symmetry. apply counted_in; assumption.
  - exact Hcount.
  - exact Htotal.
Qed.

Lemma breakdown_counts_records_witness :
  In ("malware", 2) (type_breakdown sample_batch) /\
  2 = count_of "malware" sample_batch.
Proof.
  split.
  - vm_compute. auto.
  - apply (proj1 (proj2 (proj2 (breakdown_counts_records sample_batch)))
             "malware" 2).
    vm_compute. auto.
Defined.

(** ** Substring containment *)

Lemma prefix_spec s1 s2 :
  String.prefix s1 s2 = true <-> exists post, s2 = s1 +:+ post.
Proof.
  revert s2. induction s1 as [|a s1 IH]; intros s2.
  - split; [|destruct s2; reflexivity]. intros _. exists s2. reflexivity.
  - destruct s2 as [|b s2]; simpl.
    + split; [discriminate | intros [post H]; discriminate].
    + destruct (ascii_dec a b) as [->|Hab].
      * rewrite IH. split; intros [post H]; exists post.
        -- rewrite H. reflexivity.
        -- inversion H. reflexivity.
      * split; [discriminate|]. intros [post H]. inversion H. congruence.
Qed.

(** X17: the locator's test on a title is substring containment, not
    equality: a sub-collection matches exactly when its title can be
    written with "Enterprise ATT&CK" somewhere inside it, whatever comes
    before and after. *)
Theorem match_is_substring_containment coll :
  is_enterprise coll = true <->
  exists pre post, title coll = pre +:+ "Enterprise ATT&CK" +:+ post.
Proof.
  unfold is_enterprise. generalize (title coll) as hay.
  generalize "Enterprise ATT&CK" as needle. intros needle hay.
  induction hay as [|c hay IH].
  - cbn [str_contains]. destruct (String.prefix needle "") eqn:Hp.
    + split; [|reflexivity]. intros _. apply prefix_spec in Hp.
      destruct Hp as [post Hp]. exists "", post. exact Hp.
    + split; [discriminate|]. intros [pre [post H]].
      destruct pre; [|discriminate]. simpl in H.
      assert (Hp' : String.prefix needle "" = true)
        by (apply prefix_spec; exists post; exact H).
      congruence.
  - cbn [str_contains].
    destruct (String.prefix needle (String c hay)) eqn:Hp.
    + split; [|reflexivity]. intros _. apply prefix_spec in Hp.
      destruct Hp as [post Hp]. exists "", post. exact Hp.
    + rewrite IH. split.
      * intros [pre [post H]]. exists (String c pre), post.
        rewrite H. reflexivity.
      * intros [pre [post H]]. destruct pre as [|c' pre].
        -- simpl in H.
           assert (Hp' : String.prefix needle (String c hay) = true)
             by (apply prefix_spec; exists post; exact H).
           congruence.
        -- inversion H. exists pre, post. reflexivity.
Qed.

(** ** The run in a healthy world *)

Lemma load_calm h batch w s :
  batch <> [] ->
  (forall site, w_store_fault w site = None) ->
  exists s', load_to_mongodb h batch w s = (Ok true, s').
Proof.
  intros Hbatch Hcalm. destruct batch as [|r batch]; [contradiction|].
  unfold_load. exec. rewrite !Hcalm. exec.
  cbn [store set_store record_events].
  destruct (0 <? length (docs_of (store s) h))%nat;
    repeat (progress (exec; rewrite ?Hcalm; cbn [map length Nat.ltb Nat.leb]));
    eexists; reflexivity.
Qed.

Lemma get_enterprise_found root colls ec w s :
  ar_collections root = Returns colls ->
  first_enterprise colls = Some ec ->
  exists evs, get_enterprise_collection root w s = (Ok ec, record_events evs s).
Proof.
  intros Hcolls Hfirst. unfold get_enterprise_collection. exec.
  rewrite Hcolls. exec.
  destruct colls as [|c colls]; [discriminate|].
  rewrite Hfirst. exec. rewrite !record_events_app. eexists. reflexivity.
Qed.

Lemma not_absent_not_set env key : ~ absent env key -> not_set (env !! key) = false.
Proof.
  unfold absent. intros H. destruct (env !! key) as [x|]; [|tauto].
  simpl. destruct (String.eqb_spec x "") as [->|_]; [tauto | reflexivity].
Qed.

Lemma connect_to_mongodb_healthy uri dbn w s :
  w_mongo_client w = None -> w_server_info w = None -> w_database w dbn = None ->
  exists evs,
    connect_to_mongodb uri dbn w s =
    (Ok ({| client_uri := uri |}, dbn, (dbn, "mitre_attack_raw")),
     record_events evs s).
Proof.
  intros Hclient Hprobe Hname. unfold connect_to_mongodb. exec.
  rewrite Hclient. exec. rewrite Hprobe. exec. rewrite Hname. exec.
  rewrite !record_events_app. eexists. reflexivity.
Qed.

Lemma connect_to_taxii_server_first_attempt w s root others t :
  w_taxii_server w 0 = Returns (root :: others) ->
  ar_title root = Returns t ->
  exists evs,
    connect_to_taxii_server w s =
    (Ok (Some (taxii_url, root)), record_events evs s).
Proof.
  intros Hserver Htitle.
  destruct (taxii_attempt_succeeds w s 0 root others t Hserver Htitle)
    as [evs [E _]].
  exists evs. unfold connect_to_taxii_server. cbn [seq max_retries taxii_loop].
  rewrite (bind_ok _ _ _ _ _ _ E). reflexivity.
Qed.

(** X18: in a healthy world, with both variables set, when the first API
    root of the server lists a sub-collection whose title contains
    "Enterprise ATT&CK" and that collection answers with source objects of
    which at least one is of the allowlist, the run exits with status 0,
    the target collection holds exactly the normalized records of the
    allowlisted objects, in fetch order, and the client is closed once. *)
Theorem healthy_run_succeeds w env db root others t colls ec kv ds :
  ~ absent (effective_env w env) "MONGO_URI" ->
  ~ absent (effective_env w env) "MONGO_DB" ->
  healthy w env ->
  w_taxii_server w 0 = Returns (root :: others) ->
  ar_title root = Returns t ->
  ar_collections root = Returns colls ->
  first_enterprise colls = Some ec ->
  get_objects ec = Returns (PDict kv) ->
  dict_lookup kv "objects" = Some (PList (map PDict ds)) ->
  List.filter allowlisted (map PDict ds) <> [] ->
  exit_status (fst (run w env db)) = 0%Z /\
  docs_of (store (snd (run w env db))) (target_collection w env) =
    map Normalized
        (normalized_from w 0 (List.filter allowlisted (map PDict ds))) /\
  close_calls (trace (snd (run w env db))) = 1.
Proof.
  intros Huri Hdb [Hclient [Hprobe [Hname [Hclose Hcalm]]]]
         Hserver Htitle Hcolls Hfirst Hget Hobjs Hsome.
  set (batch := normalized_from w 0 (List.filter allowlisted (map PDict ds))).
  set (h := target_collection w env).
  assert (Hbatch : batch <> []).
  { unfold batch. destruct (List.filter allowlisted (map PDict ds));
      [contradiction | discriminate]. }
  (* steps 1 and 2 *)
  assert (Eenv : load_environment w (started env db) =
                 (Ok (default "" (effective_env w env !! "MONGO_URI"),
                      configured_db w env),
                  set_environ (effective_env w env) (started env db))).
  { rewrite load_environment_outcome.
    change (environ (started env db) ∪ w_dotenv w) with (effective_env w env).
    rewrite (not_absent_not_set _ _ Huri), (not_absent_not_set _ _ Hdb).
    reflexivity. }
  destruct (connect_to_mongodb_healthy
              (default "" (effective_env w env !! "MONGO_URI"))
              (configured_db w env) w
              (set_environ (effective_env w env) (started env db))
              Hclient Hprobe Hname) as [evs1 Econn].
  set (client := {| client_uri := default "" (effective_env w env !! "MONGO_URI") |})
    in Econn.
  set (s1 := record_events evs1
               (set_environ (effective_env w env) (started env db))) in Econn.
  assert (Eopen : open_store w (started env db) =
                  (Ok (client, configured_db w env, h), s1)).
  { unfold open_store. rewrite (bind_ok _ _ _ _ _ _ Eenv). exact Econn. }
  (* steps 3 and 4 *)
  destruct (connect_to_taxii_server_first_attempt w (set_main_client client s1)
              root others t Hserver Htitle) as [evs2 Efeed].
  destruct (get_enterprise_found root colls ec w
              (record_events evs2 (set_main_client client s1)) Hcolls Hfirst)
    as [evs3 Eent].
  set (s3 := record_events evs3 (record_events evs2 (set_main_client client s1)))
    in Eent.
  assert (Elocate : locate_collection w (set_main_client client s1) =
                    (Ok ec, s3)).
  { unfold locate_collection. rewrite (bind_ok _ _ _ _ _ _ Efeed). exact Eent. }
  assert (Ereach : reach_fetch w (started env db) = (Ok (h, ec), s3)).
  { unfold reach_fetch. rewrite (bind_ok _ _ _ _ _ _ Eopen). cbn [fst snd].
    rewrite (bind_ok (assign_client client) _ w s1 tt
               (set_main_client client s1) eq_refl).
    rewrite (bind_ok _ _ _ _ _ _ Elocate). reflexivity. }
  (* steps 5 to 7 *)
  destruct (fetch_well_formed w s3 ec kv ds Hget Hobjs) as [s4 Efetch].
  fold batch in Efetch.
  destruct (load_calm h batch w s4 Hbatch Hcalm) as [s5 Eload].
  destruct (load_true_docs h batch w s4 s5 Eload) as [_ Hdocs].
  destruct (print_summary h w s5) as [r6 s6] eqn:Esum.
  assert (Hr6 : r6 = Ok tt).
  { pose proof (print_summary_returns h w s5) as Hret.
    rewrite Esum in Hret. apply Hret. intros site. rewrite Hcalm. discriminate. }
  subst r6.
  set (s7 := record_events
               [Log INFO ("ETL pipeline completed successfully in " +:+
                          w_elapsed w +:+ " seconds")] s6).
  assert (Ebody : main_body w (started env db) = (Ok tt, s7)).
  { rewrite main_body_split. rewrite (bind_ok _ _ _ _ _ _ Ereach). cbn [fst snd].
    unfold fetch_load_report.
    rewrite (bind_ok _ _ _ _ _ _ Efetch), (bind_ok _ _ _ _ _ _ Eload).
    cbv iota. rewrite (bind_ok _ _ _ _ _ _ Esum). reflexivity. }
  assert (Hdocs7 : docs_of (store s7) h = map Normalized batch).
  { pose proof (print_summary_same_store h w s5 _ s6 Esum) as Hsame.
    unfold same_store in Hsame. cbn [s7 store record_events].
    rewrite Hsame. exact Hdocs. }
  assert (Hclient7 : main_client s7 = Some client).
  { pose proof (main_body_client w (started env db) (Ok tt) s7 eq_refl Ebody)
      as Hc. rewrite Eopen in Hc. exact Hc. }
  assert (Hquiet : close_calls (trace s7) = 0).
  { destruct (main_body_no_close w (started env db) (Ok tt) s7 Ebody)
      as [[evs [Htrace Hevs]] _].
    rewrite Htrace, close_calls_app, (close_calls_quiet evs Hevs). reflexivity. }
  rewrite run_unfold. unfold try_finally. rewrite main_handlers_spec, Ebody.
  rewrite main_cleanup_spec, Hclient7, Hclose.
  cbn [fst snd exit_status trace store record_events].
  split; [reflexivity|]. split; [exact Hdocs7|].
  rewrite close_calls_app, Hquiet. reflexivity.
Qed.

Lemma healthy_run_succeeds_witness :
  exit_status (fst (run calm_world sample_env populated_store)) = 0%Z /\
  docs_of (store (snd (run calm_world sample_env populated_store)))
          (target_collection calm_world sample_env) =
    map Normalized sample_batch /\
  close_calls (trace (snd (run calm_world sample_env populated_store))) = 1.
Proof.
  apply (healthy_run_succeeds calm_world sample_env populated_store
           sample_root [] "MITRE ATT&CK"
           [mobile_collection; sample_collection] sample_collection
           sample_response sample_objects).
  - intros [H|H]; vm_compute in H; discriminate.
  - intros [H|H]; vm_compute in H; discriminate.
  - repeat split.
  - reflexivity.
  - reflexivity.
  - reflexivity.
  - reflexivity.
  - reflexivity.
  - reflexivity.
  - vm_compute. discriminate.
Defined.

(** ** The user's interrupt *)

Lemma interrupted_fetch_raises ec w s :
  get_objects ec = Raises Interrupted ->
  fetch_and_transform_data ec w s =
  (Raise KeyboardInterrupt,
   record_events [Log INFO "Fetching data from MITRE ATT&CK...";
                  Called (GetObjects (title ec)) false] s).
Proof.
  intros Hget. unfold fetch_and_transform_data, fetch_body. exec.
  rewrite Hget. exec. rewrite record_events_app. reflexivity.
Qed.

(** X19: an interrupt of the request for the objects is not taken for an
    empty answer: the run that reached the fetch logs that the user
    interrupted it, makes no store call, leaves the store as it was, closes
    the client once and exits with a non-zero status. *)
Theorem interrupted_fetch_stops_the_run w env db h ec s :
  reach_fetch w (started env db) = (Ok (h, ec), s) ->
  get_objects ec = Raises Interrupted ->
  fst (fetch_and_transform_data ec w s) = Raise KeyboardInterrupt /\
  exit_status (fst (run w env db)) <> 0%Z /\
  In (Log WARNING "ETL pipeline interrupted by user")
     (trace (snd (run w env db))) /\
  Forall not_store (trace (snd (run w env db))) /\
  store (snd (run w env db)) = db /\
  close_calls (trace (snd (run w env db))) = 1.
Proof.
  intros Hreach Hget.
  pose proof (interrupted_fetch_raises ec w s Hget) as Hfetch.
  split; [rewrite Hfetch; reflexivity|].
  remember (record_events [Log INFO "Fetching data from MITRE ATT&CK...";
                           Called (GetObjects (title ec)) false] s)
    as s1 eqn:Hs1.
  assert (Hbody : main_body w (started env db) = (Raise KeyboardInterrupt, s1)).
  { rewrite main_body_split. rewrite (bind_ok _ _ _ _ _ _ Hreach).
    cbn [fst snd]. unfold fetch_load_report.
    apply (bind_raise _ _ _ _ _ _ Hfetch). }
  assert (Hstage : evolves not_store no_collection (started env db) s).
  { eapply respects_reach_fetch; [..|exact Hreach];
      unfold not_store, no_collection; evolves_premise. }
  pose proof (untouched_store _ _ Hstage) as Hstore.
  destruct Hstage as [[evs [Htrace Hevs]] _].
  change (trace (started env db))
    with [Print "MITRE ATT&CK ETL Connector Started"; Print bar] in Htrace.
  change (store (started env db)) with db in Hstore.
  assert (Hclient : exists client, main_client s1 = Some client).
  { pose proof (main_body_client w (started env db) _ s1 eq_refl Hbody) as Hc.
    unfold reach_fetch in Hreach. unfold bind at 1 in Hreach.
    destruct (open_store w (started env db)) as [[[[c d] h0]|e] s0];
      [|discriminate].
    exists c. exact Hc. }
  destruct Hclient as [client Hclient].
  assert (Hquiet : close_calls (trace s1) = 0).
  { destruct (main_body_no_close w (started env db) _ s1 Hbody)
      as [[evs' [Htrace' Hevs']] _].
    rewrite Htrace', close_calls_app, (close_calls_quiet evs' Hevs').
    reflexivity. }
  assert (Hnostore : Forall not_store (trace s1)).
  { rewrite Hs1. cbn [trace record_events]. rewrite Htrace.
    repeat (apply Forall_app; split); try exact Hevs; repeat constructor. }
  assert (Hstore1 : store s1 = db).
  { rewrite Hs1. exact Hstore. }
  rewrite run_unfold. unfold try_finally. rewrite main_handlers_spec, Hbody.
  rewrite main_cleanup_spec. cbn [main_client record_events]. rewrite Hclient.
  destruct (w_close w) as [[msg|]|];
    cbn [fst snd trace store record_events exit_status exn_of].
  all: split; [discriminate|].
  all: split; [apply in_or_app; left; apply in_or_app; right; left; reflexivity|].
  all: split; [repeat (apply Forall_app; split); try exact Hnostore;
               repeat constructor|].
  all: split; [exact Hstore1|].
  all: rewrite !close_calls_app, Hquiet; reflexivity.
Qed.

Lemma interrupted_fetch_stops_the_run_witness :
  exit_status (fst (run interrupted_fetch_world sample_env populated_store)) <> 0%Z /\
  store (snd (run interrupted_fetch_world sample_env populated_store)) =
    populated_store /\
  close_calls (trace (snd (run interrupted_fetch_world sample_env
                             populated_store))) = 1.
Proof.
  pose proof (interrupted_fetch_stops_the_run interrupted_fetch_world sample_env
                populated_store ("cti", "mitre_attack_raw")
                interrupted_fetch_collection
                (snd (reach_fetch interrupted_fetch_world
                        (started sample_env populated_store)))
                ltac:(vm_compute; reflexivity) eq_refl)
    as [_ [Hexit [_ [_ [Hstore Hclose]]]]].
  split; [exact Hexit|]. split; [exact Hstore | exact Hclose].
Defined.
